(** * Shallow embedding of the manipulation-space search engine of
    black_box_attack (manipulation_space.py, manipulator.py, bb_ps_attack.py).

    Features are the strings "category::identifier" produced by the feature
    extractor; numpy index vectors are lists of Z (they may be negative, as
    numpy integers); Python dicts whose iteration order matters are
    association lists kept in insertion order; exceptions are an error sum. *)

From Stdlib Require Import List String Ascii ZArith Lia Bool Permutation Arith.
Import ListNotations.
Open Scope string_scope.
Open Scope list_scope.
Open Scope Z_scope.

(* ------------------------------------------------------------------ *)
(** ** Python helpers *)

(** [lst[i]] for a Python list and an integer index: negative indices
    count from the end, anything else out of range raises IndexError. *)
Definition py_nth {A : Type} (l : list A) (i : Z) : option A :=
  let n := Z.of_nat (List.length l) in
  if (0 <=? i) && (i <? n) then nth_error l (Z.to_nat i)
  else if (- n <=? i) && (i <? 0) then nth_error l (Z.to_nat (n + i))
  else None.

(** A list comprehension whose body may raise. *)
Fixpoint map_opt {A B : Type} (f : A -> option B) (l : list A) : option (list B) :=
  match l with
  | [] => Some []
  | x :: t =>
      match f x with
      | None => None
      | Some y => match map_opt f t with Some ys => Some (y :: ys) | None => None end
      end
  end.

(** [x in lst] on a list of strings. *)
Definition str_mem (x : string) (l : list string) : bool :=
  existsb (String.eqb x) l.

(** [s.split("::")[0]]: the text before the first "::" (all of [s] when
    there is none). *)
Fixpoint category (s : string) : string :=
  match s with
  | EmptyString => EmptyString
  | String c rest =>
      match rest with
      | String c' _ =>
          if Ascii.eqb c ":" && Ascii.eqb c' ":" then EmptyString
          else String c (category rest)
      | EmptyString => String c EmptyString
      end
  end.

(** [s.startswith(p)] *)
Definition starts_with (p s : string) : bool := String.prefix p s.

(** [s.endswith(p)] *)
Definition ends_with (p s : string) : bool :=
  (String.length p <=? String.length s)%nat &&
  String.eqb (substring (String.length s - String.length p)%nat (String.length p) s) p.

(* ------------------------------------------------------------------ *)
(** ** Manipulations (manipulation_space.py) *)

Record Manipulations := mkManipulations {
  inject : list string;
  obfuscate : list string
}.

(** [__len__] *)
Definition Manipulations_len (m : Manipulations) : nat :=
  (List.length (inject m) + List.length (obfuscate m))%nat.

(** [get_idxs] *)
Definition get_idxs (m : Manipulations) : list Z :=
  map Z.of_nat (seq 0 (List.length (inject m))) ++
  map (fun i => Z.of_nat i + Z.of_nat (List.length (inject m))) (seq 0 (List.length (obfuscate m))).

(** [get_manipulations_from_vector]: boolean masks on the numpy vector,
    then two list comprehensions indexing the Python lists. *)
Definition get_manipulations_from_vector (m : Manipulations) (v : list Z)
  : option Manipulations :=
  let ni := Z.of_nat (List.length (inject m)) in
  let inject_idx := filter (fun i => i <? ni) v in
  let obfuscate_idx := map (fun i => i - ni) (filter (fun i => ni <=? i) v) in
  match map_opt (py_nth (inject m)) inject_idx with
  | None => None
  | Some inj =>
      match map_opt (py_nth (obfuscate m)) obfuscate_idx with
      | None => None
      | Some obf => Some (mkManipulations inj obf)
      end
  end.

(** A ManipulationSpace: a Manipulations object plus its set of disabled
    categories (a Python set, kept as a duplicate-free list). *)
Record ManipulationSpace := mkSpace {
  ms_inject : list string;
  ms_obfuscate : list string;
  disabled_categories : list string
}.

Definition space_manipulations (sp : ManipulationSpace) : Manipulations :=
  mkManipulations (ms_inject sp) (ms_obfuscate sp).

Definition space_len (sp : ManipulationSpace) : nat :=
  Manipulations_len (space_manipulations sp).

(** [ManipulationSpace.get_vector_from_manipulations]: enumerates the
    positions of the given lists, offsetting obfuscations by the number of
    injections of the space. *)
Definition get_vector_from_manipulations (sp : ManipulationSpace) (m : Manipulations)
  : list Z :=
  map Z.of_nat (seq 0 (List.length (inject m))) ++
  map (fun i => Z.of_nat i + Z.of_nat (List.length (ms_inject sp))) (seq 0 (List.length (obfuscate m))).

(** Indices of [v] all in [0, len(m)). *)
Definition in_range (m : Manipulations) (v : list Z) : bool :=
  forallb (fun i => (0 <=? i) && (i <? Z.of_nat (Manipulations_len m))) v.

(** The candidate addressed by index [i] of [m]. *)
Definition candidate_at (m : Manipulations) (i : Z) : string :=
  let ni := Z.of_nat (List.length (inject m)) in
  if i <? ni then nth (Z.to_nat i) (inject m) ""
  else nth (Z.to_nat (i - ni)) (obfuscate m) "".

Definition all_candidates (m : Manipulations) : list string := inject m ++ obfuscate m.

(* ------------------------------------------------------------------ *)
(** ** ManipulationSpace construction (manipulation_space.py) *)

Record Feature := mkFeature { feat_inject : bool; feat_obfuscate : bool }.

(** The class attribute [ManipulationSpace.features]; a missing key is a
    KeyError, hence [option]. *)
Definition features (cat : string) : option Feature :=
  if String.eqb cat "activities" then Some (mkFeature false true)
  else if String.eqb cat "services" then Some (mkFeature false true)
  else if String.eqb cat "providers" then Some (mkFeature false true)
  else if String.eqb cat "receivers" then Some (mkFeature false true)
  else if String.eqb cat "api_calls" then Some (mkFeature true true)
  else if String.eqb cat "suspicious_calls" then Some (mkFeature false true)
  else if String.eqb cat "urls" then Some (mkFeature true true)
  else None.

(** A filtering list comprehension whose condition may raise. *)
Fixpoint filter_opt {A : Type} (p : A -> option bool) (l : list A) : option (list A) :=
  match l with
  | [] => Some []
  | x :: t =>
      match p x with
      | None => None
      | Some b =>
          match filter_opt p t with
          | None => None
          | Some t' => Some (if b then x :: t' else t')
          end
      end
  end.

(** Condition of [get_valid_injections]. *)
Definition valid_injection (feat : string) : option bool :=
  match features (category feat) with
  | None => None
  | Some f =>
      Some (feat_inject f &&
            negb ((starts_with "api_calls::" feat || starts_with "suspicious_calls::" feat) &&
                  negb (ends_with "()V" feat || ends_with "()Z" feat || ends_with "()I" feat)))
  end.

Definition get_valid_injections (goodware_features : list string) : option (list string) :=
  filter_opt valid_injection goodware_features.

Definition get_valid_obfuscations (malware_features : list string) : option (list string) :=
  filter_opt (fun feat => option_map feat_obfuscate (features (category feat))) malware_features.

(** [ManipulationSpace.__init__] *)
Definition ManipulationSpace_init (valid_injections malware_features : list string)
  : option ManipulationSpace :=
  match get_valid_injections
          (filter (fun v => negb (str_mem v malware_features)) valid_injections) with
  | None => None
  | Some inj =>
      match get_valid_obfuscations (filter (fun f => negb (str_mem f inj)) malware_features) with
      | None => None
      | Some obf => Some (mkSpace inj obf [])
      end
  end.

Definition get_all_injections (sp : ManipulationSpace) : Manipulations :=
  mkManipulations (ms_inject sp) [].

Definition get_all_obfuscations (sp : ManipulationSpace) : Manipulations :=
  mkManipulations [] (ms_obfuscate sp).

(** [set_error_free_manipulations] *)
Definition set_error_free_manipulations (sp : ManipulationSpace) (m : Manipulations)
  : ManipulationSpace :=
  mkSpace (inject m) (obfuscate m) (disabled_categories sp).

(** A Python dict from category to list of features, in insertion order. *)
Definition dict := list (string * list string).

Fixpoint dict_mem (k : string) (d : dict) : bool :=
  match d with
  | [] => false
  | (k', _) :: t => String.eqb k k' || dict_mem k t
  end.

Fixpoint dict_get (k : string) (d : dict) : option (list string) :=
  match d with
  | [] => None
  | (k', v) :: t => if String.eqb k k' then Some v else dict_get k t
  end.

(** [if k not in d: d[k] = []] followed by [d[k].append(x)]. *)
Fixpoint dict_append (k x : string) (d : dict) : dict :=
  match d with
  | [] => [(k, [x])]
  | (k', xs) :: t =>
      if String.eqb k k' then (k', xs ++ [x]) :: t else (k', xs) :: dict_append k x t
  end.

(** The loop of [get_obfuscations_by_categories] and
    [get_injections_by_categories]. *)
Definition group_by_category (l : list string) : dict :=
  fold_left (fun d feat => dict_append (category feat) feat d) l [].

Definition get_obfuscations_by_categories (sp : ManipulationSpace) : dict :=
  group_by_category (ms_obfuscate sp).

Definition get_injections_by_categories (sp : ManipulationSpace) : dict :=
  group_by_category (ms_inject sp).

(** [disable_category]: [self._disabled_categories.add(category)]. *)
Definition disable_category (sp : ManipulationSpace) (c : string) : ManipulationSpace :=
  mkSpace (ms_inject sp) (ms_obfuscate sp)
    (if str_mem c (disabled_categories sp) then disabled_categories sp
     else disabled_categories sp ++ [c]).

(** [{**a, **b}]: the keys of [a] in order, then the new keys of [b];
    for a key of both, the value of [b]. *)
Definition dict_merge (a b : dict) : dict :=
  map (fun kv => match dict_get (fst kv) b with
                 | Some v => (fst kv, v)
                 | None => kv
                 end) a ++
  filter (fun kv => negb (dict_mem (fst kv) a)) b.

(** The possible results of [BBPSAttack._get_random_manipulation_vector]:
    [np.random.choice(np.arange(len(space)), replace=False,
    size=min(len(space), n_features))] draws distinct indices of
    [0, len(space)). *)
Definition random_manipulation_vector (sp : ManipulationSpace) (n_features : nat)
  (v : list Z) : Prop :=
  NoDup v /\
  Forall (fun i => 0 <= i < Z.of_nat (space_len sp)) v /\
  List.length v = Nat.min (space_len sp) n_features.

(* ------------------------------------------------------------------ *)
(** ** Error-free manipulations (manipulator.py) *)

(** [l[c::n]] for a step [n >= 1]: skip [c] elements, take one, then
    skip [n - 1] and take one, and so on. *)
Fixpoint stride_from {A : Type} (c n : nat) (l : list A) : list A :=
  match l with
  | [] => []
  | x :: t =>
      match c with
      | O => x :: stride_from (n - 1) n t
      | S c' => stride_from c' n t
      end
  end.

(** [n = min(n_jobs, len(manipulation))] and the index vectors
    [idxs[i::n] for i in range(n)]. *)
Definition split_count (n_jobs : Z) (m : Manipulations) : nat :=
  Z.to_nat (Z.min n_jobs (Z.of_nat (Manipulations_len m))).

Definition sub_vectors (n_jobs : Z) (m : Manipulations) : list (list Z) :=
  let n := split_count n_jobs m in
  map (fun i => stride_from i n (get_idxs m)) (seq 0 n).

Definition sub_manipulations (n_jobs : Z) (m : Manipulations) : option (list Manipulations) :=
  map_opt (get_manipulations_from_vector m) (sub_vectors n_jobs m).

(** [error_free_manipulations.inject.extend(...)] and the same for
    [obfuscate]. *)
Definition app_manip (a b : Manipulations) : Manipulations :=
  mkManipulations (inject a ++ inject b) (obfuscate a ++ obfuscate b).

Definition empty_manip : Manipulations := mkManipulations [] [].

Section ErrorFree.

(** The build oracle: [_apply_manipulations] returns the manipulations when
    [_manipulate] and [build_obfuscated_apk] succeed, [None] otherwise. *)
Variable build : Manipulations -> bool.
Variable n_jobs : Z.

(** [_recurse_apply_manipulations] on a list of manipulations, returning
    what it appends to the accumulator. [fuel] is the remaining Python
    recursion depth: [None] is a raised exception (RecursionError, or an
    IndexError of [get_manipulations_from_vector]). *)
Fixpoint recurse_apply_manipulations (fuel : nat) (ms : list Manipulations)
  : option Manipulations :=
  match fuel with
  | O => None
  | S f =>
      (fix go (l : list Manipulations) : option Manipulations :=
         match l with
         | [] => Some empty_manip
         | m :: rest =>
             let here :=
               if build m then Some m
               else if (1 <? Manipulations_len m)%nat then
                 match sub_manipulations n_jobs m with
                 | Some subs => recurse_apply_manipulations f subs
                 | None => None
                 end
               else Some empty_manip in
             match here, go rest with
             | Some a, Some b => Some (app_manip a b)
             | _, _ => None
             end
         end) ms
  end.

(** [get_error_free_manipulations] with [cache_dir=None] (no cache load or
    save): the build without manipulations, retried under the degraded
    policy, must succeed ([baseline_ok]), then the recursion runs on the
    whole set. *)
Definition get_error_free_manipulations (baseline_ok : bool) (fuel : nat)
  (m : Manipulations) : option Manipulations :=
  if baseline_ok then recurse_apply_manipulations fuel [m] else None.

End ErrorFree.

(* ------------------------------------------------------------------ *)
(** ** The error-free cache (manipulator.py) *)

(** The file name chosen by [_load_error_free_manipulations] (from the
    input) and by [_save_error_free_manipulations] (from the result). *)
Definition cache_filename (stem : string) (m : Manipulations) : string :=
  if (0 <? List.length (inject m))%nat && (List.length (obfuscate m) =? 0)%nat
  then String.append stem ".inject.pkl"
  else if (List.length (inject m) =? 0)%nat && (0 <? List.length (obfuscate m))%nat
  then String.append stem ".obfuscate.pkl"
  else String.append stem ".all.pkl".

(** The pickles of the directory [cache_dir/stem], by file name. *)
Definition cache_store := list (string * Manipulations).

Fixpoint store_get (name : string) (st : cache_store) : option Manipulations :=
  match st with
  | [] => None
  | (n, m) :: t => if String.eqb name n then Some m else store_get name t
  end.

(** [pickle.dump(..., open(name, "wb"))]: the file is overwritten. *)
Definition store_put (name : string) (m : Manipulations) (st : cache_store) : cache_store :=
  (name, m) :: filter (fun e => negb (String.eqb name (fst e))) st.

(** [if cache_dir:] with [cache_dir] an optional string. *)
Definition cache_enabled (cache_dir : option string) : bool :=
  match cache_dir with Some d => negb (String.eqb d "") | None => false end.

Definition load_error_free_manipulations (cache_dir : option string) (stem : string)
  (m : Manipulations) (st : cache_store) : option Manipulations :=
  if cache_enabled cache_dir then store_get (cache_filename stem m) st else None.

Definition save_error_free_manipulations (cache_dir : option string) (stem : string)
  (r : Manipulations) (st : cache_store) : cache_store :=
  if cache_enabled cache_dir then store_put (cache_filename stem r) r st else st.

(** [get_error_free_manipulations] with its cache: a loaded pickle is
    returned as is; otherwise the recursion runs and its result is saved.
    [None] is a raised exception. *)
Definition get_error_free_manipulations_cached (build : Manipulations -> bool) (n_jobs : Z)
  (baseline_ok : bool) (fuel : nat) (cache_dir : option string) (stem : string)
  (st : cache_store) (m : Manipulations) : option (Manipulations * cache_store) :=
  match load_error_free_manipulations cache_dir stem m st with
  | Some r => Some (r, st)
  | None =>
      match get_error_free_manipulations build n_jobs baseline_ok fuel m with
      | Some r => Some (r, save_error_free_manipulations cache_dir stem r st)
      | None => None
      end
  end.

(* ------------------------------------------------------------------ *)
(** ** Exceptions and oracle queries *)

Inductive py_exc :=
| KeyError | IndexError | RecursionError | BuildError
| NoManipulation (* Exception("No manipulation can be applied.") *)
| AttributeError
| ClassifyError (* raised by [classify], e.g. on the [None] path of a failed build *).

(** A state and error monad. *)
Definition SM (St A : Type) : Type := St -> (A + py_exc) * St.

(** The state of [M] counts classifier queries. *)
Definition M (A : Type) : Type := SM nat A.

Definition ret {St A : Type} (x : A) : SM St A := fun s => (inl x, s).
Definition raise {St A : Type} (e : py_exc) : SM St A := fun s => (inr e, s).
Definition bind {St A B : Type} (c : SM St A) (k : A -> SM St B) : SM St B :=
  fun s => match c s with
           | (inl x, s') => k x s'
           | (inr e, s') => (inr e, s')
           end.

Notation "x <- c ;; k" := (bind c (fun x => k))
  (at level 61, c at next level, right associativity).

Definition of_option {St A : Type} (e : py_exc) (o : option A) : SM St A :=
  match o with Some x => ret x | None => raise e end.

(** One call of [classify]: one query. *)
Definition classify_query {A B : Type} (f : A -> B) (x : A) : M B :=
  fun q => (inl (f x), S q).

(** One call of [classify] that may raise: one query either way. *)
Definition classify_query_opt {A B : Type} (f : A -> option B) (x : A) : M B :=
  fun q => match f x with
           | Some y => (inl y, S q)
           | None => (inr ClassifyError, S q)
           end.

(* ------------------------------------------------------------------ *)
(** ** Model probing (manipulator.py) *)

(** [Manipulations(feats, [])] if [feat_category in injections_by_category]
    else [Manipulations([], feats)]. *)
Definition probe_manipulations (injections_by_category : dict) (feat_category : string)
  (feats : list string) : Manipulations :=
  if dict_mem feat_category injections_by_category
  then mkManipulations feats [] else mkManipulations [] feats.

Section Probing.

(** [_model_probing]: the score the classifier gives to the APK that
    [manipulate] builds with the given manipulations (floats: only their
    equality is used). [None]: [classify] raises, as it does on the [None]
    path [manipulate] returns when the build fails; [_model_probing] and
    [model_probing] catch nothing. *)
Variable score : Manipulations -> option Z.
Variable init_score : Z.

(** The loop of [model_probing] over the merged dict items. *)
Fixpoint probe_items (injections_by_category : dict) (items : dict)
  (sp : ManipulationSpace) : M ManipulationSpace :=
  match items with
  | [] => ret sp
  | (feat_category, feats) :: t =>
      let manipulations := probe_manipulations injections_by_category feat_category feats in
      s <- classify_query_opt score manipulations ;;
      (* [if not result[1]] where [result[1] = init_score != score] *)
      probe_items injections_by_category t
        (if Z.eqb init_score s then disable_category sp feat_category else sp)
  end.

(** [Manipulator.model_probing] *)
Definition model_probing (sp : ManipulationSpace) : M ManipulationSpace :=
  let injections_by_category := get_injections_by_categories sp in
  let obfuscations_by_category := get_obfuscations_by_categories sp in
  probe_items injections_by_category
    (dict_merge injections_by_category obfuscations_by_category) sp.

End Probing.

(** The sets [model_probing] submits, in order. *)
Definition probed_sets (sp : ManipulationSpace) : list Manipulations :=
  map (fun cf => probe_manipulations (get_injections_by_categories sp) (fst cf) (snd cf))
    (dict_merge (get_injections_by_categories sp) (get_obfuscations_by_categories sp)).

(* ------------------------------------------------------------------ *)
(** ** The attack (bb_ps_attack.py) *)

(** The state of an attack: the classifier queries made, and the pickles
    of the features cache directory. *)
Record attack_state := mkState { queries : nat; store : cache_store }.

(** A computation on the query count alone. *)
Definition lift {A : Type} (c : M A) : SM attack_state A :=
  fun s => match c (queries s) with
           | (r, q) => (r, mkState q (store s))
           end.

(** A computation on the cache directory: [None] is a raised [e], which
    leaves the files as they were. *)
Definition with_store {A : Type} (e : py_exc) (c : cache_store -> option (A * cache_store))
  : SM attack_state A :=
  fun s => match c (store s) with
           | Some (x, st) => (inl x, mkState (queries s) st)
           | None => (inr e, s)
           end.

Section Attack.

(** [clf.classify([apk])] as (label, score); label 0 is benign. *)
Variable clf_classify : string -> Z * Z.
(** The feature extractor on one APK. *)
Variable extract_features : string -> list string.
(** [self._goodware_features] *)
Variable goodware_features : list string.
(** Build oracle, baseline build and probe score of each APK. *)
Variable build : string -> Manipulations -> bool.
Variable baseline_ok : string -> bool.
Variable probe_score : string -> Manipulations -> option Z.
Variable n_jobs : Z.
Variable depth : nat.
(** [self._features_cache] *)
Variable features_cache : option string.
(** [Path(apk_path).stem] *)
Variable apk_stem : string -> string.

(** [_build_manipulation_space]: both [get_error_free_manipulations] calls
    get [cache_dir=self._features_cache]. *)
Definition build_manipulation_space (sample : string) : SM attack_state ManipulationSpace :=
  sp <- of_option KeyError
          (ManipulationSpace_init goodware_features (extract_features sample)) ;;
  inj <- with_store BuildError (fun st =>
           get_error_free_manipulations_cached (build sample) n_jobs (baseline_ok sample) depth
             features_cache (apk_stem sample) st (get_all_injections sp)) ;;
  obf <- with_store BuildError (fun st =>
           get_error_free_manipulations_cached (build sample) n_jobs (baseline_ok sample) depth
             features_cache (apk_stem sample) st (get_all_obfuscations sp)) ;;
  ret (set_error_free_manipulations sp (mkManipulations (inject inj) (obfuscate obf))).

(** [_init_attack] *)
Definition init_attack (sample : string) (init_score : Z) : SM attack_state ManipulationSpace :=
  sp <- build_manipulation_space sample ;;
  sp' <- lift (model_probing (probe_score sample) init_score sp) ;;
  if (space_len sp' =? 0)%nat then raise NoManipulation else ret sp'.

(** [_run_attack]: after [_init_attack] it calls [self._init_optimizer()],
    which [BBPSAttack] does not define. *)
Definition run_attack (sample : string) : SM attack_state (Z * Z * string) :=
  r <- lift (classify_query clf_classify sample) ;;
  let (label, score) := r in
  if Z.eqb label 0 then ret (label, score, sample)
  else
    _ <- init_attack sample score ;;
    raise AttributeError.

(** [run]: [results.append(self._run_attack(sample))] for each sample. *)
Fixpoint run (samples : list string) : SM attack_state (list (Z * Z * string)) :=
  match samples with
  | [] => ret []
  | s :: t => r <- run_attack s ;; rs <- run t ;; ret (r :: rs)
  end.

End Attack.

(** The search loop of [_run_attack]:
    [budget = 0; while budget < self._query_budget: pass].
    [Some b] is an exit within [fuel] iterations with [budget = b]. *)
Fixpoint search_loop (fuel : nat) (budget query_budget : Z) : option Z :=
  match fuel with
  | O => None
  | S f => if budget <? query_budget then search_loop f budget query_budget else Some budget
  end.

(* ------------------------------------------------------------------ *)
(** ** Predicates used to state the construction of the space *)

(** A feature string "category::identifier" contains the separator "::". *)
Fixpoint has_sep (s : string) : bool :=
  match s with
  | EmptyString => false
  | String c rest =>
      match rest with
      | String c' _ => (Ascii.eqb c ":" && Ascii.eqb c' ":") || has_sep rest
      | EmptyString => false
      end
  end.

Definition injectable_category (cat : string) : bool :=
  match features cat with Some f => feat_inject f | None => false end.

Definition obfuscatable_category (cat : string) : bool :=
  match features cat with Some f => feat_obfuscate f | None => false end.

Definition call_category (cat : string) : bool :=
  String.eqb cat "api_calls" || String.eqb cat "suspicious_calls".

Definition safe_return_type (feat : string) : bool :=
  ends_with "()V" feat || ends_with "()Z" feat || ends_with "()I" feat.

(* ------------------------------------------------------------------ *)
(** ** Candidate dispatch of [Manipulator._manipulate] (manipulator.py) *)

(** The text after the first "::" of [s], if there is one. *)
Fixpoint after_sep (s : string) : option string :=
  match s with
  | EmptyString => None
  | String c rest =>
      match rest with
      | String c' rest' =>
          if Ascii.eqb c ":" && Ascii.eqb c' ":" then Some rest' else after_sep rest
      | EmptyString => None
      end
  end.

(** [s.split("::")[1]]: the second field, IndexError when there is no "::". *)
Definition split_second (s : string) : option string :=
  option_map category (after_sep s).

(** [s.replace(".", "/")] *)
Fixpoint replace_dot (s : string) : string :=
  match s with
  | EmptyString => EmptyString
  | String c rest =>
      String (if Ascii.eqb c "." then "/"%char else c) (replace_dot rest)
  end.

(** [st.add(x)] on a Python set of strings, kept as a duplicate-free list. *)
Definition set_add (x : string) (l : list string) : list string :=
  if str_mem x l then l else l ++ [x].

(** The five sets of [ManipulationStatus] that [_manipulate] fills. *)
Record ManipSets := mkManipSets {
  class_to_rename : list string;
  android_api_to_reflect : list string;
  string_to_encrypt : list string;
  urls_to_inject : list string;
  apis_to_inject : list string
}.

(** [ManipulationStatus.reset] on these sets. *)
Definition reset_sets : ManipSets := mkManipSets [] [] [] [] [].

(** One iteration of the loop over [manipulations.inject]. *)
Definition inject_step (st : ManipSets) (feature : string) : option ManipSets :=
  match split_second feature with
  | None => None
  | Some feat =>
      let feat_type := category feature in
      Some (if String.eqb feat_type "urls" then
              mkManipSets (class_to_rename st) (android_api_to_reflect st)
                (string_to_encrypt st) (set_add feat (urls_to_inject st)) (apis_to_inject st)
            else if String.eqb feat_type "api_calls" then
              mkManipSets (class_to_rename st) (android_api_to_reflect st)
                (string_to_encrypt st) (urls_to_inject st) (set_add feat (apis_to_inject st))
            else st)
  end.

(** One iteration of the loop over [manipulations.obfuscate]. *)
Definition obfuscate_step (st : ManipSets) (feature : string) : option ManipSets :=
  match split_second feature with
  | None => None
  | Some feat =>
      let feat_type := category feature in
      Some (if String.eqb feat_type "urls" then
              mkManipSets (class_to_rename st) (android_api_to_reflect st)
                (set_add feat (string_to_encrypt st)) (urls_to_inject st) (apis_to_inject st)
            else if str_mem feat_type ["api_calls"; "suspicious_calls"] then
              mkManipSets (class_to_rename st) (set_add feat (android_api_to_reflect st))
                (string_to_encrypt st) (urls_to_inject st) (apis_to_inject st)
            else if str_mem feat_type ["activities"; "services"; "providers"; "receivers"] then
              mkManipSets
                (set_add (String.append "L" (String.append (replace_dot feat) ";"))
                   (class_to_rename st))
                (android_api_to_reflect st) (string_to_encrypt st) (urls_to_inject st)
                (apis_to_inject st)
            else st)
  end.

(** A [for] loop whose body may raise. *)
Fixpoint fold_opt {A B : Type} (f : B -> A -> option B) (l : list A) (b : B) : option B :=
  match l with
  | [] => Some b
  | x :: t => match f b x with Some b' => fold_opt f t b' | None => None end
  end.

(** [_manipulate] up to the obfuscators: [reset], then the two loops. *)
Definition manipulate_sets (m : Manipulations) : option ManipSets :=
  match fold_opt inject_step (inject m) reset_sets with
  | None => None
  | Some st => fold_opt obfuscate_step (obfuscate m) st
  end.

(* ------------------------------------------------------------------ *)
(** ** [StringInjection.treat_dex] (string_injection.py) *)

(** [[strings[i : i + 15] for i in range(0, len(strings), 15)]] *)
Definition strings_to_inject (strings : list string) : list (list string) :=
  map (fun i => firstn 15 (skipn i strings))
    (map (fun k => 15 * k)%nat (seq 0 ((List.length strings + 14) / 15))).

Section TreatDex.

(** [add_function(smali_file, strings)]: True when the file has a
    "# direct methods" line (the method is inserted there). *)
Variable add_function : string -> list string -> bool.
Variable max_methods_to_add : Z.
Variable chunks : list (list string).

(** The loop of [treat_dex] from [added_methods]: the returned value and
    the (file, chunk) pairs on which the function was added. *)
Fixpoint treat_dex_loop (smali_files : list string) (added_methods : nat)
  : bool * list (string * list string) :=
  match smali_files with
  | [] => (true, [])
  | f :: fs =>
      if (List.length chunks <=? added_methods)%nat then (true, [])
      else if Z.of_nat added_methods <? max_methods_to_add then
        let chunk := nth added_methods chunks [] in
        if add_function f chunk then
          let (b, added) := treat_dex_loop fs (S added_methods) in (b, (f, chunk) :: added)
        else treat_dex_loop fs added_methods
      else (false, [])
  end.

End TreatDex.

Definition treat_dex (add_function : string -> list string -> bool) (urls_to_inject : list string)
  (smali_files : list string) (max_methods_to_add : Z) : bool * list (string * list string) :=
  treat_dex_loop add_function max_methods_to_add (strings_to_inject urls_to_inject) smali_files 0.

(* ------------------------------------------------------------------ *)
(** ** [AttAdvancedReflection._analyze_methods] (att_advanced_reflection.py) *)

Section AnalyzeMethods.

(** [util.method_pattern.match(line)]: the [method_param] group. *)
Variable method_match : string -> option string.
(** [count_needed_registers(split_method_params(params))] *)
Variable needed_registers : string -> nat.
(** [util.locals_pattern.match(line)]: [int] of the [local_count] group. *)
Variable locals_match : string -> option nat.

(** The body of the loop at [line_number]: [None] is the IndexError of
    [lines[line_number + 1]], [Some None] a line that declares no method. *)
Definition analyze_line (lines : list string) (line_number : nat) (line : string)
  : option (option (nat * bool * nat)) :=
  match method_match line with
  | None => Some None
  | Some params =>
      match nth_error lines (S line_number) with
      | None => None
      | Some next =>
          let param_count := needed_registers params in
          let local_count := match locals_match next with Some n => n | None => 16%nat end in
          Some (Some (line_number, (param_count + local_count <=? 11)%nat, local_count))
      end
  end.

Fixpoint analyze_from (lines : list string) (line_number : nat) (rest : list string)
  : option (list nat * list bool * list nat) :=
  match rest with
  | [] => Some ([], [], [])
  | line :: t =>
      match analyze_line lines line_number line, analyze_from lines (S line_number) t with
      | Some None, Some r => Some r
      | Some (Some (i, b, c)), Some (is, bs, cs) => Some (i :: is, b :: bs, c :: cs)
      | _, _ => None
      end
  end.

(** [_analyze_methods]: method_index, method_is_reflectable,
    method_local_count. *)
Definition analyze_methods (lines : list string) : option (list nat * list bool * list nat) :=
  analyze_from lines 0 lines.

End AnalyzeMethods.

(* ------------------------------------------------------------------ *)
(** ** Features read from the JSON cache (feature_extractor.py) *)

(** [[f"{k}::{v}" for k in data for v in data[k] if data[k]]] *)
Definition features_from_json (data : dict) : list string :=
  flat_map (fun kv =>
    flat_map (fun v => match snd kv with
                       | [] => []
                       | _ => [String.append (fst kv) (String.append "::" v)]
                       end) (snd kv)) data.


(* ------------------------------------------------------------------ *)
(** ** [BBPSAttack._generate_candidate_injections] (bb_ps_attack.py) *)

(** [self._goodware_features]: [ManipulationSpace.get_valid_injections] of
    the features of all goodware samples chained in one list. *)
Definition generate_candidate_injections (goodware_features : list (list string))
  : option (list string) :=
  get_valid_injections (List.concat goodware_features).

(** A JSON key with no ":" character. *)
Definition no_colon (k : string) : bool :=
  forallb (fun c => negb (Ascii.eqb c ":")) (list_ascii_of_string k).

(** The one-candidate sets, injections first. *)
Definition singletons (m : Manipulations) : list Manipulations :=
  map (fun x => mkManipulations [x] []) (inject m) ++
  map (fun x => mkManipulations [] [x]) (obfuscate m).

(* ================================================================== *)
(** * Lemmas on the embedding *)

Lemma map_opt_ext_some {A B : Type} (f : A -> option B) (g : A -> B) (l : list A) :
  (forall x, In x l -> f x = Some (g x)) -> map_opt f l = Some (map g l).
Proof.
  induction l as [|x t IH]; intros H; simpl; [reflexivity|].
  rewrite (H x (or_introl eq_refl)).
  rewrite IH by (intros y Hy; apply H; right; exact Hy).
  reflexivity.
Qed.

Lemma map_opt_none {A B : Type} (f : A -> option B) (l : list A) (x : A) :
  In x l -> f x = None -> map_opt f l = None.
Proof.
  induction l as [|y t IH]; simpl; intros Hin Hx; [contradiction|].
  destruct Hin as [<-|Hin].
  - rewrite Hx; reflexivity.
  - destruct (f y); [|reflexivity].
    rewrite (IH Hin Hx); reflexivity.
Qed.

Lemma map_opt_map {A B C : Type} (f : B -> option C) (h : A -> B) (l : list A) :
  map_opt f (map h l) = map_opt (fun x => f (h x)) l.
Proof.
  induction l as [|x t IH]; simpl; [reflexivity|].
  rewrite IH; reflexivity.
Qed.

Lemma py_nth_in_range {A : Type} (l : list A) (i : Z) (d : A) :
  0 <= i < Z.of_nat (List.length l) -> py_nth l i = Some (nth (Z.to_nat i) l d).
Proof.
  intros H; unfold py_nth.
  replace ((0 <=? i) && (i <? Z.of_nat (List.length l))) with true
    by (symmetry; apply andb_true_iff; split; [apply Z.leb_le|apply Z.ltb_lt]; lia).
  apply nth_error_nth'; lia.
Qed.

Lemma py_nth_negative {A : Type} (l : list A) (i : Z) (d : A) :
  - Z.of_nat (List.length l) <= i < 0 ->
  py_nth l i = Some (nth (Z.to_nat (Z.of_nat (List.length l) + i)) l d).
Proof.
  intros H; unfold py_nth.
  replace ((0 <=? i) && (i <? Z.of_nat (List.length l))) with false
    by (symmetry; apply andb_false_iff; left; apply Z.leb_gt; lia).
  replace ((- Z.of_nat (List.length l) <=? i) && (i <? 0)) with true
    by (symmetry; apply andb_true_iff; split; [apply Z.leb_le|apply Z.ltb_lt]; lia).
  apply nth_error_nth'; lia.
Qed.

Lemma py_nth_out_of_range {A : Type} (l : list A) (i : Z) :
  Z.of_nat (List.length l) <= i \/ i < - Z.of_nat (List.length l) -> py_nth l i = None.
Proof.
  intros H; unfold py_nth.
  replace ((0 <=? i) && (i <? Z.of_nat (List.length l))) with false
    by (symmetry; apply andb_false_iff; destruct H;
        [right; apply Z.ltb_ge | left; apply Z.leb_gt]; lia).
  replace ((- Z.of_nat (List.length l) <=? i) && (i <? 0)) with false
    by (symmetry; apply andb_false_iff; destruct H;
        [right; apply Z.ltb_ge | left; apply Z.leb_gt]; lia).
  reflexivity.
Qed.

Lemma in_range_spec (m : Manipulations) (v : list Z) :
  in_range m v = true <-> forall i, In i v -> 0 <= i < Z.of_nat (Manipulations_len m).
Proof.
  unfold in_range; rewrite forallb_forall; split; intros H i Hi; specialize (H i Hi).
  - apply andb_true_iff in H as [H1 H2]; apply Z.leb_le in H1; apply Z.ltb_lt in H2; lia.
  - apply andb_true_iff; split; [apply Z.leb_le|apply Z.ltb_lt]; lia.
Qed.

(** On in-range vectors, [get_manipulations_from_vector] is the lookup of
    each index, inject-range indices first. *)
Lemma get_manipulations_from_vector_in_range (m : Manipulations) (v : list Z) :
  in_range m v = true ->
  get_manipulations_from_vector m v =
  Some (mkManipulations
          (map (candidate_at m) (filter (fun i => i <? Z.of_nat (List.length (inject m))) v))
          (map (candidate_at m) (filter (fun i => Z.of_nat (List.length (inject m)) <=? i) v))).
Proof.
  intros Hr; rewrite in_range_spec in Hr.
  unfold get_manipulations_from_vector, Manipulations_len in *.
  rewrite (map_opt_ext_some _ (candidate_at m)).
  2:{ intros i Hi; apply filter_In in Hi as [Hi Hlt]; apply Z.ltb_lt in Hlt.
      specialize (Hr i Hi).
      unfold candidate_at; rewrite (proj2 (Z.ltb_lt _ _) Hlt).
      apply py_nth_in_range; lia. }
  rewrite map_opt_map.
  rewrite (map_opt_ext_some _ (candidate_at m)).
  2:{ intros i Hi; apply filter_In in Hi as [Hi Hle]; apply Z.leb_le in Hle.
      specialize (Hr i Hi).
      unfold candidate_at; rewrite (proj2 (Z.ltb_ge _ _) Hle).
      apply py_nth_in_range; lia. }
  reflexivity.
Qed.

Lemma filter_length_split (p : Z -> bool) (v : list Z) :
  (List.length (filter p v) + List.length (filter (fun i => negb (p i)) v))%nat = List.length v.
Proof.
  induction v as [|x t IH]; simpl; [reflexivity|].
  destruct (p x); simpl; lia.
Qed.

Lemma filter_ge_negb (n : Z) (v : list Z) :
  filter (fun i => n <=? i) v = filter (fun i => negb (i <? n)) v.
Proof.
  apply filter_ext; intros i; apply Z.leb_antisym.
Qed.

Lemma count_occ_map_le (f : Z -> string) (l : list Z) (x : Z) :
  (count_occ Z.eq_dec l x <= count_occ string_dec (map f l) (f x))%nat.
Proof.
  induction l as [|y t IH]; simpl; [lia|].
  destruct (Z.eq_dec y x) as [->|Hne].
  - destruct (string_dec (f x) (f x)) as [_|C]; [lia|congruence].
  - destruct (string_dec (f y) (f x)); lia.
Qed.

Lemma count_occ_filter_split (p : Z -> bool) (l : list Z) (x : Z) :
  (count_occ Z.eq_dec (filter p l) x +
   count_occ Z.eq_dec (filter (fun i => negb (p i)) l) x)%nat = count_occ Z.eq_dec l x.
Proof.
  induction l as [|y t IH]; simpl; [reflexivity|].
  destruct (p y); simpl; destruct (Z.eq_dec y x); lia.
Qed.

(* ------------------------------------------------------------------ *)
(** * Index vectors and candidates *)

(** C9 (corrected): [get_manipulations_from_vector] on an index vector with
    all indices in [0, len(set)) returns [len(vector)] candidates: those of
    the inject-range indices as injections, the others as obfuscations, in
    the vector's order. An index [>= len(set)], or below [-len(inject)],
    raises IndexError; a negative index [i >= -len(inject)] is not rejected:
    it selects [inject[len(inject) + i]], Python's negative indexing. *)
Theorem get_manipulations_from_vector_contract (m : Manipulations) (v : list Z) :
  (in_range m v = true ->
   exists r, get_manipulations_from_vector m v = Some r /\
     Manipulations_len r = List.length v /\
     inject r = map (candidate_at m)
                  (filter (fun i => i <? Z.of_nat (List.length (inject m))) v) /\
     obfuscate r = map (candidate_at m)
                     (filter (fun i => Z.of_nat (List.length (inject m)) <=? i) v)) /\
  (forall i, In i v ->
     Z.of_nat (Manipulations_len m) <= i \/ i < - Z.of_nat (List.length (inject m)) ->
     get_manipulations_from_vector m v = None) /\
  (forall i, - Z.of_nat (List.length (inject m)) <= i < 0 ->
     get_manipulations_from_vector m [i] =
     Some (mkManipulations
             [nth (Z.to_nat (Z.of_nat (List.length (inject m)) + i)) (inject m) ""] [])).
Proof.
  split; [|split].
  - intros Hr; rewrite (get_manipulations_from_vector_in_range m v Hr).
    eexists; split; [reflexivity|]; split; [|split; reflexivity].
    unfold Manipulations_len; simpl; rewrite !length_map.
    rewrite filter_ge_negb; apply filter_length_split.
  - intros i Hi Hout; unfold get_manipulations_from_vector, Manipulations_len in *.
    destruct Hout as [Hge|Hlt].
    + destruct (map_opt _ _); [|reflexivity].
      rewrite (map_opt_none _ _ (i - Z.of_nat (List.length (inject m)))); [reflexivity| |].
      * apply (in_map (fun j => j - Z.of_nat (List.length (inject m)))), filter_In.
        split; [exact Hi|apply Z.leb_le; lia].
      * apply py_nth_out_of_range; lia.
    + rewrite (map_opt_none _ _ i); [reflexivity| |].
      * apply filter_In; split; [exact Hi|apply Z.ltb_lt; lia].
      * apply py_nth_out_of_range; lia.
  - intros i Hi; unfold get_manipulations_from_vector; simpl.
    replace (i <? Z.of_nat (List.length (inject m))) with true
      by (symmetry; apply Z.ltb_lt; lia).
    replace (Z.of_nat (List.length (inject m)) <=? i) with false
      by (symmetry; apply Z.leb_gt; lia).
    simpl; rewrite (py_nth_negative _ _ "") by lia; reflexivity.
Qed.

Lemma get_manipulations_from_vector_contract_witness :
  in_range (mkManipulations ["urls::a"; "urls::b"] ["activities::C"]) [2; 0] = true /\
  (exists r, get_manipulations_from_vector
               (mkManipulations ["urls::a"; "urls::b"] ["activities::C"]) [2; 0] = Some r /\
     Manipulations_len r = List.length [2; 0] /\
     inject r = map (candidate_at (mkManipulations ["urls::a"; "urls::b"] ["activities::C"]))
                  (filter (fun i => i <? 2) [2; 0]) /\
     obfuscate r = map (candidate_at (mkManipulations ["urls::a"; "urls::b"] ["activities::C"]))
                     (filter (fun i => 2 <=? i) [2; 0])) /\
  get_manipulations_from_vector
    (mkManipulations ["urls::a"; "urls::b"] ["activities::C"]) [0; 3] = None /\
  get_manipulations_from_vector
    (mkManipulations ["urls::a"; "urls::b"] ["activities::C"]) [-1] =
  Some (mkManipulations [nth (Z.to_nat (2 + -1)) ["urls::a"; "urls::b"] ""] []).
Proof.
  split; [reflexivity|].
  destruct (get_manipulations_from_vector_contract
              (mkManipulations ["urls::a"; "urls::b"] ["activities::C"]) [2; 0])
    as [H1 [H2 H3]].
  split; [apply H1; reflexivity|].
  split.
  - destruct (get_manipulations_from_vector_contract
                (mkManipulations ["urls::a"; "urls::b"] ["activities::C"]) [0; 3])
      as [_ [H2' _]].
    apply (H2' 3); [simpl; auto|left; simpl; lia].
  - apply (H3 (-1)); simpl; lia.
Defined.

(** C9 counterexample: index -1 lies outside [0, len(set)) yet no error is
    raised; the last injection is selected. *)
Lemma get_manipulations_from_vector_negative_index :
  get_manipulations_from_vector (mkManipulations ["urls::a"; "urls::b"] ["activities::C"]) [-1]
  = Some (mkManipulations ["urls::b"] []).
Proof. reflexivity. Qed.

(** C10: [get_manipulations_from_vector] does not deduplicate: on an
    in-range vector the result has as many candidates as the vector has
    entries, each occurrence of an index yields one copy of its candidate,
    and a vector with a repeated index gives a result with a repeated
    candidate. *)
Theorem get_manipulations_from_vector_no_dedup (m : Manipulations) (v : list Z) :
  in_range m v = true ->
  exists r, get_manipulations_from_vector m v = Some r /\
    Manipulations_len r = List.length v /\
    (forall i, In i v ->
       le (count_occ Z.eq_dec v i)
          (count_occ string_dec (all_candidates r) (candidate_at m i))) /\
    (~ NoDup v -> ~ NoDup (all_candidates r)).
Proof.
  intros Hr.
  rewrite (get_manipulations_from_vector_in_range m v Hr).
  eexists; split; [reflexivity|].
  assert (Hcount : forall i, le (count_occ Z.eq_dec v i)
            (count_occ string_dec
              (all_candidates
                 (mkManipulations
                    (map (candidate_at m)
                       (filter (fun i => i <? Z.of_nat (List.length (inject m))) v))
                    (map (candidate_at m)
                       (filter (fun i => Z.of_nat (List.length (inject m)) <=? i) v))))
              (candidate_at m i))).
  { intros i; unfold all_candidates; simpl.
    rewrite count_occ_app, filter_ge_negb.
    rewrite <- (count_occ_filter_split (fun i => i <? Z.of_nat (List.length (inject m))) v i).
    pose proof (count_occ_map_le (candidate_at m)
                  (filter (fun i => i <? Z.of_nat (List.length (inject m))) v) i).
    pose proof (count_occ_map_le (candidate_at m)
                  (filter (fun i => negb (i <? Z.of_nat (List.length (inject m)))) v) i).
    lia. }
  split; [|split].
  - unfold Manipulations_len; simpl; rewrite !length_map.
    rewrite filter_ge_negb; apply filter_length_split.
  - intros i _; apply Hcount.
  - intros Hv Hnd; apply Hv.
    apply (NoDup_count_occ Z.eq_dec); intros i.
    specialize (Hcount i).
    apply (NoDup_count_occ string_dec) with (x := candidate_at m i) in Hnd.
    lia.
Qed.

Lemma get_manipulations_from_vector_no_dedup_witness :
  in_range (mkManipulations ["urls::a"; "urls::b"] ["activities::C"]) [0; 2; 0] = true /\
  exists r, get_manipulations_from_vector
              (mkManipulations ["urls::a"; "urls::b"] ["activities::C"]) [0; 2; 0] = Some r /\
    Manipulations_len r = List.length [0; 2; 0] /\
    (forall i, In i [0; 2; 0] ->
       le (count_occ Z.eq_dec [0; 2; 0] i)
          (count_occ string_dec (all_candidates r)
             (candidate_at (mkManipulations ["urls::a"; "urls::b"] ["activities::C"]) i))) /\
    (~ NoDup [0; 2; 0] -> ~ NoDup (all_candidates r)).
Proof.
  split; [reflexivity|].
  apply (get_manipulations_from_vector_no_dedup
           (mkManipulations ["urls::a"; "urls::b"] ["activities::C"]) [0; 2; 0]).
  reflexivity.
Defined.

Lemma filter_all_true {A : Type} (p : A -> bool) (l : list A) :
  (forall x, In x l -> p x = true) -> filter p l = l.
Proof.
  induction l as [|x t IH]; intros H; simpl; [reflexivity|].
  rewrite (H x (or_introl eq_refl)), IH; [reflexivity|].
  intros y Hy; apply H; right; exact Hy.
Qed.

Lemma filter_all_false {A : Type} (p : A -> bool) (l : list A) :
  (forall x, In x l -> p x = false) -> filter p l = [].
Proof.
  induction l as [|x t IH]; intros H; simpl; [reflexivity|].
  rewrite (H x (or_introl eq_refl)); apply IH.
  intros y Hy; apply H; right; exact Hy.
Qed.

(** C2 (code bug). [get_vector_from_manipulations] returns the enumerate
    positions of the given lists, as [get_idxs] does, instead of the index
    of each candidate in the space. On the space with injections [a; b] and
    obfuscation [C], the valid vector [1] selects "urls::b", which maps back
    to [0], and [0] selects "urls::a". The valid vector [2; 0] maps back to
    [0; 2]. *)
Theorem get_vector_from_manipulations_not_inverse :
  let sp := mkSpace ["urls::a"; "urls::b"] ["activities::C"] [] in
  in_range (space_manipulations sp) [1] = true /\
  get_manipulations_from_vector (space_manipulations sp) [1]
  = Some (mkManipulations ["urls::b"] []) /\
  get_vector_from_manipulations sp (mkManipulations ["urls::b"] []) = [0] /\
  get_manipulations_from_vector (space_manipulations sp) [0]
  = Some (mkManipulations ["urls::a"] []) /\
  in_range (space_manipulations sp) [2; 0] = true /\
  option_map (get_vector_from_manipulations sp)
    (get_manipulations_from_vector (space_manipulations sp) [2; 0])
  = Some [0; 2].
Proof. intros sp; repeat split; reflexivity. Qed.

(* ------------------------------------------------------------------ *)
(** * Disabled categories *)

Lemma str_mem_In (x : string) (l : list string) : str_mem x l = true -> In x l.
Proof.
  unfold str_mem; intros H; apply existsb_exists in H as [y [Hy Heq]].
  apply String.eqb_eq in Heq; subst; exact Hy.
Qed.

(** C3 (corrected): [disable_category] only records the category in the
    disabled set. [get_injections_by_categories],
    [get_obfuscations_by_categories] and the random manipulation vector
    never read that set: their results are the same after the call. *)
Theorem disable_category_is_ignored (sp : ManipulationSpace) (c : string) :
  In c (disabled_categories (disable_category sp c)) /\
  get_injections_by_categories (disable_category sp c) = get_injections_by_categories sp /\
  get_obfuscations_by_categories (disable_category sp c) = get_obfuscations_by_categories sp /\
  (forall n_features v,
     random_manipulation_vector (disable_category sp c) n_features v <->
     random_manipulation_vector sp n_features v).
Proof.
  split; [|split; [reflexivity|split; [reflexivity|]]].
  - unfold disable_category; simpl.
    destruct (str_mem c (disabled_categories sp)) eqn:E.
    + apply str_mem_In; exact E.
    + apply in_or_app; right; left; reflexivity.
  - intros n v; unfold random_manipulation_vector, space_len; simpl; tauto.
Qed.

(** C3 counterexample: after disabling "urls", the injections grouped by
    category still hold "urls::x", and the vector [0] selecting it is a
    possible random manipulation vector. *)
Lemma disable_category_urls_still_sampled :
  get_injections_by_categories
    (disable_category (mkSpace ["urls::x"] ["activities::A"] []) "urls")
  = [("urls", ["urls::x"])] /\
  random_manipulation_vector
    (disable_category (mkSpace ["urls::x"] ["activities::A"] []) "urls") 1 [0] /\
  candidate_at
    (space_manipulations (disable_category (mkSpace ["urls::x"] ["activities::A"] []) "urls")) 0
  = "urls::x" /\
  category "urls::x" = "urls".
Proof.
  split; [reflexivity|split; [|split; reflexivity]].
  unfold random_manipulation_vector; simpl.
  split; [constructor; [intros []|constructor]|].
  split; [constructor; [lia|constructor]|reflexivity].
Qed.

(* ------------------------------------------------------------------ *)
(** * Construction of the ManipulationSpace *)

Lemma filter_opt_some {A : Type} (p : A -> option bool) (l l' : list A) :
  filter_opt p l = Some l' ->
  l' = filter (fun x => match p x with Some b => b | None => false end) l.
Proof.
  revert l'; induction l as [|x t IH]; intros l' H; simpl in *.
  - injection H as <-; reflexivity.
  - destruct (p x) as [b|]; [|discriminate].
    destruct (filter_opt p t) as [t'|] eqn:Et; [|discriminate].
    injection H as <-; rewrite (IH t' eq_refl); destruct b; reflexivity.
Qed.

Lemma filter_filter_andb {A : Type} (p q : A -> bool) (l : list A) :
  filter p (filter q l) = filter (fun x => q x && p x) l.
Proof.
  induction l as [|x t IH]; simpl; [reflexivity|].
  destruct (q x); simpl; [destruct (p x); simpl|]; rewrite IH; reflexivity.
Qed.

Lemma has_sep_decomp (s : string) :
  has_sep s = true -> exists r, s = String.append (category s) (String.append "::" r).
Proof.
  induction s as [|c rest IH]; simpl; [discriminate|].
  destruct rest as [|c' r']; [discriminate|].
  destruct (Ascii.eqb c ":" && Ascii.eqb c' ":") eqn:E; simpl; intros H.
  - apply andb_true_iff in E as [E1 E2].
    apply Ascii.eqb_eq in E1, E2; subst; exists r'; reflexivity.
  - destruct (IH H) as [r Hr]; exists r.
    simpl; f_equal; exact Hr.
Qed.

Lemma prefix_app (p r : string) : String.prefix p (String.append p r) = true.
Proof.
  induction p as [|c p IH]; simpl; [destruct r; reflexivity|].
  destruct (ascii_dec c c) as [_|C]; [exact IH|contradiction].
Qed.

Lemma prefix_decomp (p s : string) :
  String.prefix p s = true -> exists r, s = String.append p r.
Proof.
  revert s; induction p as [|c p IH]; intros s H; [exists s; reflexivity|].
  destruct s as [|c' s]; simpl in H; [discriminate|].
  destruct (ascii_dec c c') as [<-|]; [|discriminate].
  destruct (IH s H) as [r ->]; exists r; reflexivity.
Qed.

(** On a feature string, the [startswith] test of [get_valid_injections]
    is the test of its category. *)
Lemma call_prefix_category (s : string) :
  has_sep s = true ->
  (starts_with "api_calls::" s || starts_with "suspicious_calls::" s) =
  call_category (category s).
Proof.
  intros Hs; destruct (has_sep_decomp s Hs) as [r Hr].
  unfold call_category, starts_with.
  destruct (String.prefix "api_calls::" s) eqn:E1.
  { destruct (prefix_decomp _ _ E1) as [r1 ->]; reflexivity. }
  destruct (String.prefix "suspicious_calls::" s) eqn:E2.
  { destruct (prefix_decomp _ _ E2) as [r2 ->]; reflexivity. }
  simpl; symmetry; apply orb_false_iff; split; apply String.eqb_neq; intros Hc.
  - rewrite Hr, Hc in E1.
    change (String.append "api_calls" (String.append "::" r))
      with (String.append "api_calls::" r) in E1.
    rewrite prefix_app in E1; discriminate.
  - rewrite Hr, Hc in E2.
    change (String.append "suspicious_calls" (String.append "::" r))
      with (String.append "suspicious_calls::" r) in E2.
    rewrite prefix_app in E2; discriminate.
Qed.

(** C7: when the construction succeeds on feature strings, [inject] is the
    list of pool features of an injectable category, absent from the
    malware's features and, for api_calls and suspicious_calls, ending with
    ()V, ()Z or ()I; [obfuscate] is the list of malware features of an
    obfuscatable category that are not in [inject]. Both keep the order of
    their source list. *)
Theorem ManipulationSpace_init_spec
  (valid_injections malware_features : list string) (sp : ManipulationSpace) :
  forallb has_sep valid_injections = true ->
  ManipulationSpace_init valid_injections malware_features = Some sp ->
  ms_inject sp =
    filter (fun v => injectable_category (category v) &&
                     negb (str_mem v malware_features) &&
                     (if call_category (category v) then safe_return_type v else true))
      valid_injections /\
  ms_obfuscate sp =
    filter (fun f => obfuscatable_category (category f) &&
                     negb (str_mem f (ms_inject sp)))
      malware_features /\
  disabled_categories sp = [].
Proof.
  intros Hsep Hinit; unfold ManipulationSpace_init in Hinit.
  destruct (get_valid_injections _) as [inj|] eqn:Ei; [|discriminate].
  destruct (get_valid_obfuscations _) as [obf|] eqn:Eo; [|discriminate].
  injection Hinit as <-; simpl.
  apply filter_opt_some in Ei, Eo; subst inj obf.
  split; [|split; [|reflexivity]].
  - rewrite filter_filter_andb; apply filter_ext_in; intros v Hv.
    apply forallb_forall with (x := v) in Hsep; [|exact Hv].
    unfold valid_injection, injectable_category, safe_return_type.
    rewrite (call_prefix_category v Hsep).
    destruct (features (category v)) as [f|]; simpl;
      [|destruct (str_mem v malware_features); reflexivity].
    destruct (str_mem v malware_features), (feat_inject f),
      (call_category (category v)),
      (ends_with "()V" v || ends_with "()Z" v || ends_with "()I" v); reflexivity.
  - rewrite filter_filter_andb; apply filter_ext; intros f.
    unfold obfuscatable_category.
    destruct (features (category f)) as [g|]; simpl; [|apply andb_false_r].
    apply andb_comm.
Qed.

Lemma ManipulationSpace_init_spec_witness :
  forallb has_sep ["api_calls::Lx;->a()V"; "api_calls::Lx;->b()J"; "urls::x"; "urls::m"]
    = true /\
  ManipulationSpace_init ["api_calls::Lx;->a()V"; "api_calls::Lx;->b()J"; "urls::x"; "urls::m"]
    ["urls::m"; "activities::B"; "api_calls::Ly;->z()J"]
  = Some (mkSpace ["api_calls::Lx;->a()V"; "urls::x"]
            ["urls::m"; "activities::B"; "api_calls::Ly;->z()J"] []) /\
  ms_inject (mkSpace ["api_calls::Lx;->a()V"; "urls::x"]
               ["urls::m"; "activities::B"; "api_calls::Ly;->z()J"] []) =
    filter (fun v => injectable_category (category v) &&
                     negb (str_mem v ["urls::m"; "activities::B"; "api_calls::Ly;->z()J"]) &&
                     (if call_category (category v) then safe_return_type v else true))
      ["api_calls::Lx;->a()V"; "api_calls::Lx;->b()J"; "urls::x"; "urls::m"].
Proof.
  split; [reflexivity|split; [reflexivity|]].
  apply (ManipulationSpace_init_spec
           ["api_calls::Lx;->a()V"; "api_calls::Lx;->b()J"; "urls::x"; "urls::m"]
           ["urls::m"; "activities::B"; "api_calls::Ly;->z()J"]); reflexivity.
Defined.

(* ------------------------------------------------------------------ *)
(** * The stride split of the error-free recursion *)

Lemma flat_map_app_perm {A B : Type} (f g : A -> list B) (cs : list A) :
  Permutation (flat_map (fun c => f c ++ g c) cs) (flat_map f cs ++ flat_map g cs).
Proof.
  induction cs as [|c cs IH]; simpl; [reflexivity|].
  rewrite <- !app_assoc; apply Permutation_app_head.
  eapply Permutation_trans; [apply Permutation_app_head, IH|].
  rewrite !app_assoc; apply Permutation_app_tail, Permutation_app_comm.
Qed.

Lemma flat_map_map_comp {A B C : Type} (f : B -> list C) (h : A -> B) (l : list A) :
  flat_map f (map h l) = flat_map (fun x => f (h x)) l.
Proof.
  induction l as [|x t IH]; [reflexivity|].
  cbn [flat_map map]; rewrite IH; reflexivity.
Qed.

Lemma flat_map_nil {A B : Type} (l : list A) :
  flat_map (fun _ => @nil B) l = [].
Proof. induction l; simpl; auto. Qed.

(** The counters after one element: [0] wraps to [k - 1]. *)
Lemma stride_counters_perm (k : nat) (cs : list nat) :
  (1 <= k)%nat -> Permutation cs (seq 0 k) ->
  Permutation (map (fun c => match c with O => (k - 1)%nat | S c' => c' end) cs) (seq 0 k).
Proof.
  intros Hk Hcs.
  eapply Permutation_trans; [apply Permutation_map, Hcs|].
  destruct k as [|k]; [lia|].
  transitivity (k :: seq 0 k).
  - simpl; replace (k - 0)%nat with k by lia.
    rewrite <- seq_shift, map_map; simpl; rewrite map_id; reflexivity.
  - rewrite seq_S; simpl; apply Permutation_cons_append.
Qed.

(** The slices [l[c::k]] for the counters [c] of a permutation of
    [0 .. k - 1] are a permutation of [l]. *)
Lemma stride_family_perm {A : Type} (k : nat) (l : list A) :
  (1 <= k)%nat -> forall cs, Permutation cs (seq 0 k) ->
  Permutation (flat_map (fun c => stride_from c k l) cs) l.
Proof.
  intros Hk; induction l as [|y t IH]; intros cs Hcs.
  - simpl; rewrite flat_map_nil; reflexivity.
  - rewrite (flat_map_ext (fun c => stride_from c k (y :: t))
               (fun c => (if Nat.eqb c 0 then [y] else []) ++
                         stride_from (match c with O => (k - 1)%nat | S c' => c' end) k t))
      by (intros [|c]; reflexivity).
    eapply Permutation_trans; [apply flat_map_app_perm|].
    change (y :: t) with ([y] ++ t); apply Permutation_app.
    + eapply Permutation_trans; [apply Permutation_flat_map, Hcs|].
      destruct k as [|k]; [lia|]; simpl.
      rewrite <- seq_shift, flat_map_map_comp; simpl; rewrite flat_map_nil; reflexivity.
    + rewrite <- (flat_map_map_comp (fun c => stride_from c k t)).
      apply IH, stride_counters_perm; assumption.
Qed.

Lemma map_of_nat_seq_shift (a b s : nat) :
  map Z.of_nat (seq (s + a) b) = map (fun i => Z.of_nat i + Z.of_nat a) (seq s b).
Proof.
  revert s; induction b as [|b IH]; intros s; simpl; [reflexivity|].
  rewrite Nat2Z.inj_add; f_equal.
  replace (S (s + a)) with (S s + a)%nat by lia; apply IH.
Qed.

Lemma get_idxs_seq (m : Manipulations) :
  get_idxs m = map Z.of_nat (seq 0 (Manipulations_len m)).
Proof.
  unfold get_idxs, Manipulations_len; rewrite seq_app, map_app; f_equal.
  symmetry; apply (map_of_nat_seq_shift _ _ 0).
Qed.

Lemma NoDup_map_of_nat (l : list nat) : NoDup l -> NoDup (map Z.of_nat l).
Proof.
  induction 1 as [|x l Hx Hl IH]; simpl; constructor; [|exact IH].
  intros Hin; apply in_map_iff in Hin as [y [Hy Hin]].
  apply Nat2Z.inj in Hy; subst; contradiction.
Qed.

Lemma get_idxs_in_range (m : Manipulations) : in_range m (get_idxs m) = true.
Proof.
  apply in_range_spec; intros i Hi; rewrite get_idxs_seq in Hi.
  apply in_map_iff in Hi as [j [<- Hj]]; apply in_seq in Hj; lia.
Qed.

(** C8: when the build of a set of [len(set) >= 2] candidates fails and
    [n_jobs >= 1], the recursion splits its index vector into
    [k = min(n_jobs, len(set))] slices [idxs[i::k]], [i < k], which together
    hold every index exactly once (a permutation of the index vector without
    repetition, hence pairwise disjoint); it recurses on their sub-sets and
    appends what they return, followed by what the remaining sets return. A
    single candidate whose build fails contributes nothing. *)
Theorem error_free_split_step (build : Manipulations -> bool) (n_jobs : Z) (fuel : nat)
  (m : Manipulations) (rest : list Manipulations) :
  (1 <= n_jobs -> build m = false -> le 2 (Manipulations_len m) ->
     le 1 (split_count n_jobs m) /\ le (split_count n_jobs m) (Manipulations_len m) /\
     List.length (sub_vectors n_jobs m) = split_count n_jobs m /\
     Permutation (List.concat (sub_vectors n_jobs m)) (get_idxs m) /\
     NoDup (List.concat (sub_vectors n_jobs m)) /\
     exists subs, sub_manipulations n_jobs m = Some subs /\
       List.length subs = split_count n_jobs m /\
       recurse_apply_manipulations build n_jobs (S fuel) (m :: rest) =
       match recurse_apply_manipulations build n_jobs fuel subs,
             recurse_apply_manipulations build n_jobs (S fuel) rest with
       | Some a, Some b => Some (app_manip a b)
       | _, _ => None
       end) /\
  (build m = false -> Manipulations_len m = 1%nat ->
     recurse_apply_manipulations build n_jobs (S fuel) (m :: rest) =
     recurse_apply_manipulations build n_jobs (S fuel) rest).
Proof.
  split.
  - intros Hn Hb Hlen.
    assert (Hk1 : le 1 (split_count n_jobs m)) by (unfold split_count; lia).
    assert (Hk2 : le (split_count n_jobs m) (Manipulations_len m)) by (unfold split_count; lia).
    assert (Hperm : Permutation (List.concat (sub_vectors n_jobs m)) (get_idxs m)).
    { unfold sub_vectors; rewrite <- flat_map_concat_map.
      apply stride_family_perm; [exact Hk1|reflexivity]. }
    assert (Hsub : forall w, In w (sub_vectors n_jobs m) -> in_range m w = true).
    { intros w Hw; apply in_range_spec; intros i Hi.
      apply (in_range_spec m (get_idxs m)); [apply get_idxs_in_range|].
      apply (Permutation_in _ Hperm), in_concat; exists w; split; assumption. }
    split; [exact Hk1|split; [exact Hk2|split]].
    { unfold sub_vectors; rewrite length_map, length_seq; reflexivity. }
    split; [exact Hperm|split].
    { apply (Permutation_NoDup (Permutation_sym Hperm)).
      rewrite get_idxs_seq; apply NoDup_map_of_nat, seq_NoDup. }
    set (g := fun w => mkManipulations
          (map (candidate_at m) (filter (fun i => i <? Z.of_nat (List.length (inject m))) w))
          (map (candidate_at m) (filter (fun i => Z.of_nat (List.length (inject m)) <=? i) w))).
    assert (Hs : sub_manipulations n_jobs m = Some (map g (sub_vectors n_jobs m))).
    { apply map_opt_ext_some; intros w Hw.
      apply get_manipulations_from_vector_in_range, Hsub, Hw. }
    exists (map g (sub_vectors n_jobs m)); split; [exact Hs|split].
    { rewrite length_map; unfold sub_vectors; rewrite length_map, length_seq; reflexivity. }
    simpl; rewrite Hb, Hs.
    replace (1 <? Manipulations_len m)%nat with true by (symmetry; apply Nat.ltb_lt; lia).
    reflexivity.
  - intros Hb Hlen; simpl; rewrite Hb, Hlen; simpl.
    match goal with |- match ?x with _ => _ end = _ => destruct x as [[bi bo]|] end;
      reflexivity.
Qed.

Lemma error_free_split_step_witness :
  (1 <= 2 /\ (fun _ : Manipulations => false) (mkManipulations ["urls::a"; "urls::b"] ["activities::C"]) = false /\
   le 2 (Manipulations_len (mkManipulations ["urls::a"; "urls::b"] ["activities::C"]))) /\
  exists subs, sub_manipulations 2 (mkManipulations ["urls::a"; "urls::b"] ["activities::C"]) = Some subs /\
    List.length subs = split_count 2 (mkManipulations ["urls::a"; "urls::b"] ["activities::C"]).
Proof.
  split; [split; [lia|split; [reflexivity|apply Nat.leb_le; reflexivity]]|].
  destruct (error_free_split_step (fun _ => false) 2 3
              (mkManipulations ["urls::a"; "urls::b"] ["activities::C"]) []) as [H _].
  assert (H1 : 1 <= 2) by lia.
  assert (H2 : le 2 (Manipulations_len (mkManipulations ["urls::a"; "urls::b"] ["activities::C"])))
    by (apply Nat.leb_le; reflexivity).
  destruct (H H1 eq_refl H2) as [_ [_ [_ [_ [_ [subs [Hs [Hl _]]]]]]]].
  exists subs; split; assumption.
Defined.

(* ------------------------------------------------------------------ *)
(** * What the error-free recursion returns *)

Lemma recurse_apply_manipulations_cons (build : Manipulations -> bool) (n_jobs : Z)
  (f : nat) (m : Manipulations) (rest : list Manipulations) :
  recurse_apply_manipulations build n_jobs (S f) (m :: rest) =
  match (if build m then Some m
         else if (1 <? Manipulations_len m)%nat then
           match sub_manipulations n_jobs m with
           | Some subs => recurse_apply_manipulations build n_jobs f subs
           | None => None
           end
         else Some empty_manip),
        recurse_apply_manipulations build n_jobs (S f) rest with
  | Some a, Some b => Some (app_manip a b)
  | _, _ => None
  end.
Proof. reflexivity. Qed.

Lemma map_opt_some_in {A B : Type} (f : A -> option B) (l : list A) (l' : list B) :
  map_opt f l = Some l' -> forall y, In y l' -> exists x, In x l /\ f x = Some y.
Proof.
  revert l'; induction l as [|x t IH]; intros l' H y Hy; simpl in H.
  - injection H as <-; contradiction.
  - destruct (f x) as [z|] eqn:Ex; [|discriminate].
    destruct (map_opt f t) as [t'|] eqn:Et; [|discriminate].
    injection H as <-; destruct Hy as [<-|Hy].
    + exists x; split; [left; reflexivity|exact Ex].
    + destruct (IH t' eq_refl y Hy) as [x' [Hx' Hf]].
      exists x'; split; [right; exact Hx'|exact Hf].
Qed.

Lemma py_nth_In {A : Type} (l : list A) (i : Z) (x : A) : py_nth l i = Some x -> In x l.
Proof.
  unfold py_nth; intros H.
  destruct (_ && _); [|destruct (_ && _); [|discriminate]];
    eapply nth_error_In; exact H.
Qed.

Lemma get_manipulations_from_vector_incl (m s : Manipulations) (v : list Z) :
  get_manipulations_from_vector m v = Some s ->
  incl (inject s) (inject m) /\ incl (obfuscate s) (obfuscate m).
Proof.
  unfold get_manipulations_from_vector; intros H.
  destruct (map_opt (py_nth (inject m)) _) as [inj|] eqn:Ei; [|discriminate].
  destruct (map_opt (py_nth (obfuscate m)) _) as [obf|] eqn:Eo; [|discriminate].
  injection H as <-; simpl; split; intros y Hy.
  - destruct (map_opt_some_in _ _ _ Ei y Hy) as [i [_ Hi]]; eapply py_nth_In; exact Hi.
  - destruct (map_opt_some_in _ _ _ Eo y Hy) as [i [_ Hi]]; eapply py_nth_In; exact Hi.
Qed.

Lemma sub_manipulations_incl (n_jobs : Z) (m : Manipulations) (subs : list Manipulations) :
  sub_manipulations n_jobs m = Some subs ->
  forall s, In s subs -> incl (inject s) (inject m) /\ incl (obfuscate s) (obfuscate m).
Proof.
  intros H s Hs; destruct (map_opt_some_in _ _ _ H s Hs) as [v [_ Hv]].
  eapply get_manipulations_from_vector_incl; exact Hv.
Qed.

(** Every candidate the recursion returns belongs to a set whose build
    succeeded, drawn from one of the input sets. *)
Lemma recurse_apply_manipulations_sound (build : Manipulations -> bool) (n_jobs : Z) (fuel : nat) :
  forall ms r, recurse_apply_manipulations build n_jobs fuel ms = Some r ->
  (forall x, In x (inject r) -> exists s, build s = true /\ In x (inject s) /\
     exists m0, In m0 ms /\ incl (inject s) (inject m0) /\ incl (obfuscate s) (obfuscate m0)) /\
  (forall x, In x (obfuscate r) -> exists s, build s = true /\ In x (obfuscate s) /\
     exists m0, In m0 ms /\ incl (inject s) (inject m0) /\ incl (obfuscate s) (obfuscate m0)).
Proof.
  induction fuel as [|f IHf]; [discriminate|].
  induction ms as [|m rest IHms]; intros r H.
  - simpl in H; injection H as <-; split; intros x [].
  - rewrite recurse_apply_manipulations_cons in H.
    destruct (recurse_apply_manipulations build n_jobs (S f) rest) as [b|] eqn:Eb;
      [|destruct (if build m then _ else _); discriminate].
    destruct (IHms b eq_refl) as [Hbi Hbo].
    (* what the rest contributes *)
    assert (Hrest : forall (sel : Manipulations -> list string) x,
               (forall x, In x (sel b) -> exists s, build s = true /\ In x (sel s) /\
                  exists m0, In m0 rest /\ incl (inject s) (inject m0) /\
                             incl (obfuscate s) (obfuscate m0)) ->
               In x (sel b) -> exists s, build s = true /\ In x (sel s) /\
                  exists m0, In m0 (m :: rest) /\ incl (inject s) (inject m0) /\
                             incl (obfuscate s) (obfuscate m0)).
    { intros sel x Hsel Hx; destruct (Hsel x Hx) as [s [Hs [Hxs [m0 [Hm0 Hincl]]]]].
      exists s; split; [exact Hs|split; [exact Hxs|]].
      exists m0; split; [right; exact Hm0|exact Hincl]. }
    destruct (build m) eqn:Ebuild.
    + injection H as <-; simpl; split; intros x Hx; apply in_app_or in Hx as [Hx|Hx].
      * exists m; split; [exact Ebuild|split; [exact Hx|]].
        exists m; split; [left; reflexivity|split; apply incl_refl].
      * apply (Hrest inject); assumption.
      * exists m; split; [exact Ebuild|split; [exact Hx|]].
        exists m; split; [left; reflexivity|split; apply incl_refl].
      * apply (Hrest obfuscate); assumption.
    + destruct (1 <? Manipulations_len m)%nat.
      * destruct (sub_manipulations n_jobs m) as [subs|] eqn:Es; [|discriminate].
        destruct (recurse_apply_manipulations build n_jobs f subs) as [a|] eqn:Ea;
          [|discriminate].
        injection H as <-.
        destruct (IHf subs a Ea) as [Hai Hao].
        assert (Hsub : forall (sel : Manipulations -> list string) x,
                   (forall x, In x (sel a) -> exists s, build s = true /\ In x (sel s) /\
                      exists m0, In m0 subs /\ incl (inject s) (inject m0) /\
                                 incl (obfuscate s) (obfuscate m0)) ->
                   In x (sel a) -> exists s, build s = true /\ In x (sel s) /\
                      exists m0, In m0 (m :: rest) /\ incl (inject s) (inject m0) /\
                                 incl (obfuscate s) (obfuscate m0)).
        { intros sel x Hsel Hx; destruct (Hsel x Hx) as [s [Hs [Hxs [m0 [Hm0 [Hi Ho]]]]]].
          destruct (sub_manipulations_incl _ _ _ Es m0 Hm0) as [Hi' Ho'].
          exists s; split; [exact Hs|split; [exact Hxs|]].
          exists m; split; [left; reflexivity|split; eapply incl_tran; eassumption]. }
        simpl; split; intros x Hx; apply in_app_or in Hx as [Hx|Hx].
        -- apply (Hsub inject); assumption.
        -- apply (Hrest inject); assumption.
        -- apply (Hsub obfuscate); assumption.
        -- apply (Hrest obfuscate); assumption.
      * injection H as <-; simpl; split; intros x Hx.
        -- apply (Hrest inject); assumption.
        -- apply (Hrest obfuscate); assumption.
Qed.

(** C4 (corrected). The error-free filter checks sets, not candidates: each
    candidate of its result lies in some set, drawn from the input, whose
    build succeeded. Only when the oracle is monotone on successful builds
    (a candidate of a set that builds also builds alone) does the result
    contain no candidate whose singleton build fails. *)
Theorem get_error_free_manipulations_sound (build : Manipulations -> bool) (n_jobs : Z)
  (baseline_ok : bool) (fuel : nat) (m r : Manipulations)
  (H : get_error_free_manipulations build n_jobs baseline_ok fuel m = Some r) :
  (forall x, In x (inject r) -> exists s, build s = true /\ In x (inject s) /\
     incl (inject s) (inject m) /\ incl (obfuscate s) (obfuscate m)) /\
  (forall x, In x (obfuscate r) -> exists s, build s = true /\ In x (obfuscate s) /\
     incl (inject s) (inject m) /\ incl (obfuscate s) (obfuscate m)) /\
  ((forall s x, build s = true -> In x (inject s) -> build (mkManipulations [x] []) = true) ->
   (forall s x, build s = true -> In x (obfuscate s) -> build (mkManipulations [] [x]) = true) ->
   (forall x, In x (inject r) -> build (mkManipulations [x] []) = true) /\
   (forall x, In x (obfuscate r) -> build (mkManipulations [] [x]) = true)).
Proof.
  unfold get_error_free_manipulations in H.
  destruct baseline_ok; [|discriminate].
  destruct (recurse_apply_manipulations_sound build n_jobs fuel [m] r H) as [Hi Ho].
  assert (Hi' : forall x, In x (inject r) -> exists s, build s = true /\ In x (inject s) /\
             incl (inject s) (inject m) /\ incl (obfuscate s) (obfuscate m)).
  { intros x Hx; destruct (Hi x Hx) as [s [Hs [Hxs [m0 [[<-|[]] Hincl]]]]].
    exists s; auto. }
  assert (Ho' : forall x, In x (obfuscate r) -> exists s, build s = true /\ In x (obfuscate s) /\
             incl (inject s) (inject m) /\ incl (obfuscate s) (obfuscate m)).
  { intros x Hx; destruct (Ho x Hx) as [s [Hs [Hxs [m0 [[<-|[]] Hincl]]]]].
    exists s; auto. }
  split; [exact Hi'|split; [exact Ho'|]].
  intros Hmi Hmo; split; intros x Hx.
  - destruct (Hi' x Hx) as [s [Hs [Hxs _]]]; eapply Hmi; eassumption.
  - destruct (Ho' x Hx) as [s [Hs [Hxs _]]]; eapply Hmo; eassumption.
Qed.

Lemma get_error_free_manipulations_sound_witness :
  get_error_free_manipulations
    (fun s => forallb (fun x => negb (String.eqb x "urls::bad")) (all_candidates s))
    2 true 5 (mkManipulations ["urls::bad"; "urls::ok"] ["activities::A"])
  = Some (mkManipulations ["urls::ok"] ["activities::A"]) /\
  (forall x, In x ["urls::ok"] ->
     forallb (fun x => negb (String.eqb x "urls::bad"))
       (all_candidates (mkManipulations [x] [])) = true).
Proof.
  assert (E : get_error_free_manipulations
    (fun s => forallb (fun x => negb (String.eqb x "urls::bad")) (all_candidates s))
    2 true 5 (mkManipulations ["urls::bad"; "urls::ok"] ["activities::A"])
    = Some (mkManipulations ["urls::ok"] ["activities::A"])) by reflexivity.
  split; [exact E|].
  refine (proj1 (proj2 (proj2 (get_error_free_manipulations_sound _ 2 true 5 _ _ E)) _ _)).
  - intros s x Hs Hx; simpl; rewrite andb_true_r.
    unfold all_candidates in Hs; rewrite forallb_forall in Hs.
    apply Hs, in_or_app; left; exact Hx.
  - intros s x Hs Hx; simpl; rewrite andb_true_r.
    unfold all_candidates in Hs; rewrite forallb_forall in Hs.
    apply Hs, in_or_app; right; exact Hx.
Defined.

(** C4 counterexample: an oracle under which the whole set builds but the
    singleton ["urls::bad"] does not; the filter keeps "urls::bad". *)
Lemma get_error_free_manipulations_keeps_failing_singleton :
  let build := fun s : Manipulations =>
    negb (Nat.eqb (List.length (inject s)) 1 && str_mem "urls::bad" (inject s)) in
  build (mkManipulations ["urls::bad"] []) = false /\
  get_error_free_manipulations build 2 true 5 (mkManipulations ["urls::bad"; "urls::ok"] [])
  = Some (mkManipulations ["urls::bad"; "urls::ok"] []).
Proof. split; reflexivity. Qed.

(** C5 (code bug). For a category with both injection and obfuscation
    candidates, [{**inj, **obf}] keeps only the obfuscation candidates, and
    [feat_category in injections_by_category] makes the probe inject them:
    the probed set is [Manipulations(obf_feats, [])], not the category's
    candidates. With inject ["urls::a"], obfuscate ["urls::b"] and baseline
    score 90, an oracle scoring 90 on every set made of the category's
    candidates, and 50 only on the injection of "urls::b", leads to a single
    query and "urls" is not disabled. *)
Theorem model_probing_shared_category :
  let sp := mkSpace ["urls::a"] ["urls::b"] [] in
  let score := fun m : Manipulations =>
    Some (if Nat.eqb (List.length (obfuscate m)) 0 && str_mem "urls::b" (inject m)
          then 50 else 90) in
  score (mkManipulations ["urls::a"] []) = Some 90 /\
  score (mkManipulations [] ["urls::b"]) = Some 90 /\
  score (mkManipulations ["urls::a"] ["urls::b"]) = Some 90 /\
  dict_merge (get_injections_by_categories sp) (get_obfuscations_by_categories sp)
    = [("urls", ["urls::b"])] /\
  model_probing score 90 sp 0%nat = (inl sp, 1%nat) /\
  ~ In "urls" (disabled_categories sp).
Proof.
  intros sp score.
  split; [reflexivity|split; [reflexivity|split; [reflexivity|]]].
  split; [reflexivity|split; [reflexivity|]].
  simpl; tauto.
Qed.

(* ------------------------------------------------------------------ *)
(** * The attack driver *)

Lemma lift_classify_query {A B : Type} (f : A -> B) (x : A) (s : attack_state) :
  lift (classify_query f x) s = (inl (f x), mkState (S (queries s)) (store s)).
Proof. reflexivity. Qed.

Lemma run_attack_benign clf_classify extract_features goodware_features build baseline_ok
  probe_score n_jobs depth features_cache apk_stem (sample : string) (s : attack_state) :
  fst (clf_classify sample) = 0 ->
  run_attack clf_classify extract_features goodware_features build baseline_ok
    probe_score n_jobs depth features_cache apk_stem sample s
  = (inl (fst (clf_classify sample), snd (clf_classify sample), sample),
     mkState (S (queries s)) (store s)).
Proof.
  intros H; unfold run_attack, bind at 1; rewrite lift_classify_query.
  destruct (clf_classify sample) as [label score]; simpl in H; subst label.
  reflexivity.
Qed.

Lemma run_attack_detected clf_classify extract_features goodware_features build baseline_ok
  probe_score n_jobs depth features_cache apk_stem (sample : string) (s : attack_state) :
  fst (clf_classify sample) <> 0 ->
  exists e s', run_attack clf_classify extract_features goodware_features build baseline_ok
                 probe_score n_jobs depth features_cache apk_stem sample s = (inr e, s').
Proof.
  intros H; unfold run_attack, bind at 1; rewrite lift_classify_query.
  destruct (clf_classify sample) as [label score]; simpl in H.
  destruct (Z.eqb_spec label 0) as [E|_]; [contradiction|].
  unfold bind.
  destruct (init_attack _ _ _ _ _ _ _ _ _ _ _ _) as [[x|e] s'']; do 2 eexists; reflexivity.
Qed.

Lemma search_loop_stuck (fuel : nat) (budget query_budget : Z) :
  budget < query_budget -> search_loop fuel budget query_budget = None.
Proof.
  intros H; induction fuel as [|f IH]; simpl; [reflexivity|].
  destruct (Z.ltb_spec budget query_budget); [exact IH|lia].
Qed.

(** Building the space makes no classifier query. *)
Lemma build_manipulation_space_queries extract_features goodware_features build baseline_ok
  n_jobs depth features_cache apk_stem (sample : string) (s : attack_state) :
  queries (snd (build_manipulation_space extract_features goodware_features build baseline_ok
                  n_jobs depth features_cache apk_stem sample s)) = queries s.
Proof.
  unfold build_manipulation_space, bind, of_option, with_store, ret, raise.
  destruct (ManipulationSpace_init goodware_features (extract_features sample)) as [sp|];
    [|reflexivity].
  destruct (get_error_free_manipulations_cached (build sample) n_jobs (baseline_ok sample) depth
              features_cache (apk_stem sample) (store s) (get_all_injections sp))
    as [[inj st1]|]; [|reflexivity].
  cbn [store queries].
  destruct (get_error_free_manipulations_cached (build sample) n_jobs (baseline_ok sample) depth
              features_cache (apk_stem sample) st1 (get_all_obfuscations sp))
    as [[obf st2]|]; reflexivity.
Qed.

(** C6 (corrected). [run] has no error handling. On samples all classified
    benign it returns exactly the pass-through record of each sample, one
    query each. When [_run_attack] raises on a sample, [run] raises the same
    exception: no record is returned, not even those of the benign samples
    before it, and the samples after it are not attacked. A detected sample
    whose error-free space is empty raises the "No manipulation" exception
    after one query (the initial classification, no probe query). *)
Theorem run_records clf_classify extract_features goodware_features build baseline_ok
  probe_score n_jobs depth features_cache apk_stem :
  (forall samples s, Forall (fun x => fst (clf_classify x) = 0) samples ->
     run clf_classify extract_features goodware_features build baseline_ok
       probe_score n_jobs depth features_cache apk_stem samples s
     = (inl (map (fun x => (fst (clf_classify x), snd (clf_classify x), x)) samples),
        mkState (queries s + List.length samples) (store s))) /\
  (forall pre sample rest s e s',
     Forall (fun x => fst (clf_classify x) = 0) pre ->
     run_attack clf_classify extract_features goodware_features build baseline_ok
       probe_score n_jobs depth features_cache apk_stem sample
       (mkState (queries s + List.length pre) (store s)) = (inr e, s') ->
     run clf_classify extract_features goodware_features build baseline_ok
       probe_score n_jobs depth features_cache apk_stem (pre ++ sample :: rest) s
     = (inr e, s')) /\
  (forall sample rest s sp s',
     fst (clf_classify sample) <> 0 ->
     build_manipulation_space extract_features goodware_features build baseline_ok
       n_jobs depth features_cache apk_stem sample (mkState (S (queries s)) (store s))
     = (inl sp, s') ->
     space_len sp = 0%nat ->
     run clf_classify extract_features goodware_features build baseline_ok
       probe_score n_jobs depth features_cache apk_stem (sample :: rest) s
     = (inr NoManipulation, s') /\ queries s' = S (queries s)).
Proof.
  split; [|split].
  - induction samples as [|x t IH]; intros s Hb; simpl.
    + rewrite Nat.add_0_r; destruct s; reflexivity.
    + inversion Hb as [|? ? Hs Ht]; subst.
      unfold bind at 1; rewrite run_attack_benign by exact Hs.
      unfold bind at 1; rewrite (IH _ Ht); simpl.
      unfold ret; rewrite Nat.add_succ_r; reflexivity.
  - induction pre as [|x t IH]; intros sample rest s e s' Hb Hr; simpl.
    + destruct s as [q0 st0]; simpl in Hr; rewrite Nat.add_0_r in Hr.
      unfold bind at 1; rewrite Hr; reflexivity.
    + inversion Hb as [|? ? Hs Ht]; subst.
      unfold bind at 1; rewrite run_attack_benign by exact Hs.
      unfold bind at 1; rewrite (IH sample rest _ e s' Ht); [reflexivity|].
      simpl; rewrite <- Nat.add_succ_r; exact Hr.
  - intros sample rest s sp s' Hd Hb Hlen.
    pose proof (build_manipulation_space_queries extract_features goodware_features build
                  baseline_ok n_jobs depth features_cache apk_stem sample
                  (mkState (S (queries s)) (store s))) as Hq.
    rewrite Hb in Hq; simpl in Hq; split; [|exact Hq].
    unfold space_len, Manipulations_len, space_manipulations in Hlen; simpl in Hlen.
    assert (Hi : ms_inject sp = []) by (apply length_zero_iff_nil; lia).
    assert (Ho : ms_obfuscate sp = []) by (apply length_zero_iff_nil; lia).
    simpl; unfold bind at 1, run_attack, bind at 1; rewrite lift_classify_query.
    destruct (clf_classify sample) as [label score] eqn:Ec; simpl in Hd.
    destruct (Z.eqb_spec label 0) as [E|_]; [contradiction|].
    unfold init_attack, bind; rewrite Hb.
    unfold lift, model_probing, get_injections_by_categories, get_obfuscations_by_categories.
    rewrite Hi, Ho; simpl.
    unfold ret; unfold space_len, Manipulations_len, space_manipulations; rewrite Hi, Ho.
    destruct s'; reflexivity.
Qed.

Lemma run_records_witness :
  let clf := fun s => if String.eqb s "good" then (0, 10) else (1, 90) in
  let ef := fun s => if String.eqb s "m1" then [] else ["urls::b"] in
  let b := fun (_ : string) (_ : Manipulations) => true in
  let bl := fun _ : string => true in
  let ps := fun (_ : string) (_ : Manipulations) => Some 90 in
  let stem := fun s : string => s in
  (build_manipulation_space ef [] b bl 1 10 None stem "m1" (mkState 1 [])
   = (inl (mkSpace [] [] []), mkState 1 []) /\
   run clf ef [] b bl ps 1 10 None stem ["m1"; "good"] (mkState 0 [])
   = (inr NoManipulation, mkState 1 []) /\ queries (mkState 1 []) = 1%nat) /\
  (run_attack clf ef [] b bl ps 1 10 None stem "m1" (mkState 1 [])
   = (inr NoManipulation, mkState 2 []) /\
   run clf ef [] b bl ps 1 10 None stem ["good"; "m1"] (mkState 0 [])
   = (inr NoManipulation, mkState 2 [])).
Proof.
  intros clf ef b bl ps stem.
  destruct (run_records clf ef [] b bl ps 1 10 None stem) as [_ [Hpre Hempty]].
  assert (Hb : build_manipulation_space ef [] b bl 1 10 None stem "m1" (mkState 1 [])
               = (inl (mkSpace [] [] []), mkState 1 [])) by reflexivity.
  assert (Ha : run_attack clf ef [] b bl ps 1 10 None stem "m1" (mkState 1 [])
               = (inr NoManipulation, mkState 2 [])) by reflexivity.
  split.
  - split; [exact Hb|].
    refine (Hempty "m1" ["good"] (mkState 0 []) (mkSpace [] [] []) (mkState 1 []) _ Hb _).
    + simpl; discriminate.
    + reflexivity.
  - split; [exact Ha|].
    refine (Hpre ["good"] "m1" [] (mkState 0 []) NoManipulation (mkState 2 []) _ Ha).
    constructor; [reflexivity|constructor].
Defined.

(** C6 counterexample: the first sample is detected and its space is empty;
    [run] raises after one query, with no record for either sample. *)
Lemma run_empty_space_aborts :
  run (fun s => if String.eqb s "good" then (0, 10) else (1, 90))
    (fun s => if String.eqb s "m1" then [] else ["urls::b"]) []
    (fun _ _ => true) (fun _ => true) (fun _ _ => Some 90) 1 10 None (fun s => s)
    ["m1"; "good"] (mkState 0 [])
  = (inr NoManipulation, mkState 1 []).
Proof. reflexivity. Qed.

(** C1 (code bug). The search is not implemented. A detected sample never
    yields a record: [_run_attack] raises. When [_init_attack] returns, the
    call [self._init_optimizer()], undefined in [BBPSAttack], raises
    AttributeError with the queries of the initial classification and of
    the probing. The stub loop [while budget < query_budget: pass] never
    changes [budget], so with [query_budget = 20] it exits within no number
    of iterations. *)
Theorem run_attack_no_search :
  (forall clf_classify extract_features goodware_features build baseline_ok
     probe_score n_jobs depth features_cache apk_stem sample s,
     fst (clf_classify sample) <> 0 ->
     exists e s', run_attack clf_classify extract_features goodware_features build
                    baseline_ok probe_score n_jobs depth features_cache apk_stem sample s
                  = (inr e, s')) /\
  (forall clf_classify extract_features goodware_features build baseline_ok
     probe_score n_jobs depth features_cache apk_stem sample s sp s',
     fst (clf_classify sample) <> 0 ->
     init_attack extract_features goodware_features build baseline_ok probe_score
       n_jobs depth features_cache apk_stem sample (snd (clf_classify sample))
       (mkState (S (queries s)) (store s)) = (inl sp, s') ->
     run_attack clf_classify extract_features goodware_features build
       baseline_ok probe_score n_jobs depth features_cache apk_stem sample s
     = (inr AttributeError, s')) /\
  (forall fuel, search_loop fuel 0 20 = None).
Proof.
  split; [|split].
  - intros; apply run_attack_detected; assumption.
  - intros clf_classify extract_features goodware_features build baseline_ok
      probe_score n_jobs depth features_cache apk_stem sample s sp s' Hd Hi.
    unfold run_attack, bind at 1; rewrite lift_classify_query.
    destruct (clf_classify sample) as [label score]; simpl in Hd, Hi.
    destruct (Z.eqb_spec label 0) as [E|_]; [contradiction|].
    unfold bind; rewrite Hi; reflexivity.
  - intros fuel; apply search_loop_stuck; lia.
Qed.

Lemma run_attack_no_search_witness :
  let clf := fun s => if String.eqb s "good" then (0, 10) else (1, 90) in
  let ef := fun s => if String.eqb s "m1" then [] else ["urls::b"; "activities::A"] in
  let b := fun (_ : string) (_ : Manipulations) => true in
  let bl := fun _ : string => true in
  let ps := fun (_ : string) (_ : Manipulations) => Some 90 in
  let stem := fun s : string => s in
  init_attack ef ["urls::a"] b bl ps 1 10 None stem "m2" 90 (mkState 1 [])
  = (inl (mkSpace ["urls::a"] ["urls::b"; "activities::A"] ["urls"; "activities"]),
     mkState 3 []) /\
  run_attack clf ef ["urls::a"] b bl ps 1 10 None stem "m2" (mkState 0 [])
  = (inr AttributeError, mkState 3 []).
Proof.
  intros clf ef b bl ps stem.
  assert (Hi : init_attack ef ["urls::a"] b bl ps 1 10 None stem "m2" 90 (mkState 1 [])
    = (inl (mkSpace ["urls::a"] ["urls::b"; "activities::A"] ["urls"; "activities"]),
       mkState 3 [])) by reflexivity.
  split; [exact Hi|].
  refine (proj1 (proj2 run_attack_no_search) clf _ _ _ _ _ _ _ _ _ "m2" (mkState 0 [])
            _ _ _ Hi).
  simpl; discriminate.
Defined.

(** C1 counterexample: [run] on a benign sample then a detected one, with
    a space of three candidates, stops with AttributeError after four
    queries, in none of the three terminal states; the loop with
    [query_budget = 20] does not exit within a thousand iterations. *)
Lemma run_detected_sample_raises :
  run (fun s => if String.eqb s "good" then (0, 10) else (1, 90))
    (fun s => if String.eqb s "m1" then [] else ["urls::b"; "activities::A"])
    ["urls::a"] (fun _ _ => true) (fun _ => true) (fun _ _ => Some 90) 1 10 None (fun s => s)
    ["good"; "m2"] (mkState 0 [])
  = (inr AttributeError, mkState 4 []) /\
  search_loop 1000 0 20 = None.
Proof. split; reflexivity. Qed.

(* ------------------------------------------------------------------ *)
(** * Grouping by category *)

Lemma dict_get_dict_append (k c x : string) (d : dict) :
  dict_get k (dict_append c x d) =
  if String.eqb k c then Some (match dict_get k d with Some v => v ++ [x] | None => [x] end)
  else dict_get k d.
Proof.
  induction d as [|[k' xs] t IH]; simpl.
  - destruct (String.eqb k c); reflexivity.
  - destruct (String.eqb_spec c k') as [->|Hc]; simpl.
    + destruct (String.eqb k k'); reflexivity.
    + rewrite IH. destruct (String.eqb_spec k k') as [->|Hk]; [|reflexivity].
      destruct (String.eqb_spec k' c) as [->|]; [contradiction|reflexivity].
Qed.

Lemma dict_keys_dict_append (c x : string) (d : dict) :
  map fst (dict_append c x d) =
  if dict_mem c d then map fst d else map fst d ++ [c].
Proof.
  induction d as [|[k' xs] t IH]; simpl; [reflexivity|].
  destruct (String.eqb_spec c k') as [->|Hc]; simpl; [reflexivity|].
  rewrite IH; destruct (dict_mem c t); reflexivity.
Qed.

Lemma dict_mem_keys (k : string) (d : dict) : dict_mem k d = true <-> In k (map fst d).
Proof.
  induction d as [|[k' xs] t IH]; simpl; [split; [discriminate|tauto]|].
  rewrite orb_true_iff, IH, String.eqb_eq; split; intros [H|H]; auto.
Qed.

Lemma dict_get_mem (k : string) (d : dict) : dict_get k d = None <-> dict_mem k d = false.
Proof.
  induction d as [|[k' xs] t IH]; simpl; [tauto|].
  destruct (String.eqb k k'); simpl; [split; discriminate|exact IH].
Qed.

Lemma group_fold_get (k : string) (l : list string) (d : dict) :
  dict_get k (fold_left (fun d feat => dict_append (category feat) feat d) l d) =
  match filter (fun f => String.eqb (category f) k) l, dict_get k d with
  | [], r => r
  | ys, None => Some ys
  | ys, Some v => Some (v ++ ys)
  end.
Proof.
  revert d; induction l as [|x t IH]; intros d; simpl.
  - destruct (dict_get k d); reflexivity.
  - rewrite IH, dict_get_dict_append.
    destruct (String.eqb_spec k (category x)) as [Hk|Hk];
      destruct (String.eqb_spec (category x) k) as [Hk'|Hk']; try congruence.
    + destruct (filter _ t) as [|y ys]; destruct (dict_get k d); simpl;
        try reflexivity; rewrite <- app_assoc; reflexivity.
    + reflexivity.
Qed.

Lemma group_fold_keys (l : list string) (d : dict) :
  NoDup (map fst d) ->
  NoDup (map fst (fold_left (fun d feat => dict_append (category feat) feat d) l d)) /\
  (forall c, In c (map fst (fold_left (fun d feat => dict_append (category feat) feat d) l d))
             <-> In c (map fst d) \/ In c (map category l)).
Proof.
  revert d; induction l as [|x t IH]; intros d Hd; simpl.
  - split; [exact Hd|intros c; tauto].
  - assert (Hd' : NoDup (map fst (dict_append (category x) x d))).
    { rewrite dict_keys_dict_append. destruct (dict_mem (category x) d) eqn:Em; [exact Hd|].
      apply NoDup_app; [exact Hd|constructor; [intros []|constructor]|].
      intros y Hy [<-|[]]. apply dict_mem_keys in Hy; congruence. }
    destruct (IH _ Hd') as [Hn Hin]; split; [exact Hn|].
    intros c; rewrite Hin, dict_keys_dict_append.
    destruct (dict_mem (category x) d) eqn:Em.
    + apply dict_mem_keys in Em. split; [tauto|].
      intros [H|[H|H]]; auto. subst; auto.
    + rewrite in_app_iff; simpl; split; [tauto|]. intros [H|[H|H]]; auto.
Qed.

(** [get_injections_by_categories] and [get_obfuscations_by_categories]
    group a list of features by the text before "::": the keys are
    distinct, they are the categories of the list, and the value of a
    key is the sublist of the features of that category, in order. *)
Lemma group_by_category_spec (l : list string) :
  NoDup (map fst (group_by_category l)) /\
  (forall c, In c (map fst (group_by_category l)) <-> In c (map category l)) /\
  (forall k, dict_get k (group_by_category l) =
     match filter (fun f => String.eqb (category f) k) l with
     | [] => None
     | ys => Some ys
     end).
Proof.
  unfold group_by_category.
  destruct (group_fold_keys l [] (NoDup_nil _)) as [Hn Hin].
  split; [exact Hn|split].
  - intros c; rewrite Hin; simpl; tauto.
  - intros k; rewrite group_fold_get; simpl.
    destruct (filter _ l); reflexivity.
Qed.

Theorem get_by_categories_spec (sp : ManipulationSpace) :
  (NoDup (map fst (get_injections_by_categories sp)) /\
   (forall c, In c (map fst (get_injections_by_categories sp)) <-> In c (map category (ms_inject sp))) /\
   (forall k, dict_get k (get_injections_by_categories sp) =
      match filter (fun f => String.eqb (category f) k) (ms_inject sp) with
      | [] => None
      | ys => Some ys
      end)) /\
  (NoDup (map fst (get_obfuscations_by_categories sp)) /\
   (forall c, In c (map fst (get_obfuscations_by_categories sp)) <-> In c (map category (ms_obfuscate sp))) /\
   (forall k, dict_get k (get_obfuscations_by_categories sp) =
      match filter (fun f => String.eqb (category f) k) (ms_obfuscate sp) with
      | [] => None
      | ys => Some ys
      end)).
Proof.
  split; apply group_by_category_spec.
Qed.

(* ------------------------------------------------------------------ *)
(** * Features of the JSON cache *)

Lemma category_cons2 (c c' : ascii) (r : string) :
  category (String c (String c' r)) =
  if Ascii.eqb c ":" && Ascii.eqb c' ":" then EmptyString else String c (category (String c' r)).
Proof. reflexivity. Qed.

Lemma category_key_sep (k v : string) :
  no_colon k = true -> category (String.append k (String.append "::" v)) = k.
Proof.
  induction k as [|c rest IH]; intros H; [reflexivity|].
  unfold no_colon in H; simpl in H; apply andb_true_iff in H as [Hc Hr].
  apply negb_true_iff in Hc.
  change (category (String c (String.append rest (String.append "::" v))) = String c rest).
  destruct (String.append rest (String.append "::" v)) as [|c' r'] eqn:E;
    [destruct rest; discriminate|].
  rewrite category_cons2, Hc, andb_false_l.
  f_equal; apply IH; exact Hr.
Qed.

Lemma flat_map_json_entry (k : string) (vs : list string) :
  flat_map (fun v => match vs with
                     | [] => []
                     | _ => [String.append k (String.append "::" v)]
                     end) vs
  = map (fun v => String.append k (String.append "::" v)) vs.
Proof.
  destruct vs as [|v0 vs']; [reflexivity|].
  change (flat_map (fun v => [String.append k (String.append "::" v)]) (v0 :: vs')
          = map (fun v => String.append k (String.append "::" v)) (v0 :: vs')).
  generalize (v0 :: vs'); intros l.
  induction l as [|x t IH]; [reflexivity|].
  cbn [flat_map map]; rewrite IH; reflexivity.
Qed.

Lemma features_from_json_filter (k : string) (data : dict) :
  forallb no_colon (map fst data) = true ->
  filter (fun f => String.eqb (category f) k) (features_from_json data) =
  flat_map (fun kv => if String.eqb (fst kv) k
                      then map (fun v => String.append (fst kv) (String.append "::" v)) (snd kv)
                      else []) data.
Proof.
  unfold features_from_json.
  induction data as [|[k' vs] t IH]; intros H; [reflexivity|].
  cbn [map fst forallb] in H; apply andb_true_iff in H as [Hk Ht].
  cbn [flat_map fst snd].
  rewrite filter_app, IH by exact Ht; f_equal.
  rewrite flat_map_json_entry.
  destruct (String.eqb k' k) eqn:E.
  - apply filter_all_true; intros x Hx. apply in_map_iff in Hx as [v [<- _]].
    rewrite category_key_sep by exact Hk; exact E.
  - apply filter_all_false; intros x Hx. apply in_map_iff in Hx as [v [<- _]].
    rewrite category_key_sep by exact Hk; exact E.
Qed.

Lemma flat_map_key_absent (k : string) (F : string * list string -> list string) (t : dict) :
  ~ In k (map fst t) ->
  flat_map (fun kv => if String.eqb (fst kv) k then F kv else []) t = [].
Proof.
  induction t as [|[k' vs] t IH]; intros H; simpl; [reflexivity|].
  destruct (String.eqb_spec k' k) as [->|_]; [exfalso; apply H; left; reflexivity|].
  apply IH; intros Hin; apply H; right; exact Hin.
Qed.

(** The features read from a cached JSON file, grouped as
    [get_injections_by_categories] does, give back each key of the JSON
    object with the features "k::v" of its values, in order; a key with
    an empty list is absent. This needs distinct keys without ':'. *)
Theorem features_from_json_group (data : dict) (k : string)
  (Hkeys : NoDup (map fst data)) (Hcolon : forallb no_colon (map fst data) = true) :
  dict_get k (group_by_category (features_from_json data)) =
  match dict_get k data with
  | Some (v :: vs) => Some (map (fun v => String.append k (String.append "::" v)) (v :: vs))
  | _ => None
  end.
Proof.
  destruct (group_by_category_spec (features_from_json data)) as [_ [_ Hget]].
  rewrite Hget, features_from_json_filter by exact Hcolon.
  clear Hget Hcolon.
  induction data as [|[k' vs] t IH]; simpl; [reflexivity|].
  inversion Hkeys as [|? ? Hnot Ht]; subst.
  destruct (String.eqb_spec k' k) as [->|Hne].
  - rewrite String.eqb_refl, flat_map_key_absent by exact Hnot.
    rewrite app_nil_r; destruct vs; reflexivity.
  - destruct (String.eqb_spec k k') as [->|_]; [contradiction|].
    simpl; apply IH; exact Ht.
Qed.

Lemma features_from_json_group_witness :
  NoDup (map fst [("urls", ["a"; "b"]); ("activities", [])]) /\
  forallb no_colon (map fst [("urls", ["a"; "b"]); ("activities", [])]) = true /\
  dict_get "urls" (group_by_category (features_from_json [("urls", ["a"; "b"]); ("activities", [])]))
  = Some ["urls::a"; "urls::b"].
Proof.
  assert (Hn : NoDup (map fst [("urls", ["a"; "b"]); ("activities", [])])).
  { simpl; constructor; [simpl; intros [H|[]]; discriminate|constructor; [intros []|constructor]]. }
  assert (Hc : forallb no_colon (map fst [("urls", ["a"; "b"]); ("activities", [])]) = true)
    by reflexivity.
  split; [exact Hn|split; [exact Hc|]].
  exact (features_from_json_group _ "urls" Hn Hc).
Defined.

(* ------------------------------------------------------------------ *)
(** * Construction of the space *)

Lemma filter_opt_none {A : Type} (p : A -> option bool) (l : list A) :
  filter_opt p l = None <-> exists x, In x l /\ p x = None.
Proof.
  induction l as [|x t IH]; simpl.
  - split; [discriminate|intros [x [[] _]]].
  - destruct (p x) as [b|] eqn:Ex.
    + destruct (filter_opt p t) eqn:Et.
      * split; [discriminate|]. intros [y [[<-|Hy] Hp]]; [congruence|].
        pose proof (proj2 IH (ex_intro _ y (conj Hy Hp))); congruence.
      * split; [|reflexivity]. intros _.
        destruct (proj1 IH eq_refl) as [y [Hy Hp]]; exists y; auto.
    + split; [|reflexivity]. intros _; exists x; auto.
Qed.

Lemma filter_opt_all_true {A : Type} (p : A -> option bool) (l : list A) :
  (forall x, In x l -> p x = Some true) -> filter_opt p l = Some l.
Proof.
  induction l as [|x t IH]; intros H; simpl; [reflexivity|].
  rewrite (H x (or_introl eq_refl)), IH; [reflexivity|].
  intros y Hy; apply H; right; exact Hy.
Qed.

Lemma str_mem_iff (x : string) (l : list string) : str_mem x l = true <-> In x l.
Proof.
  split; [apply str_mem_In|].
  unfold str_mem; intros H; apply existsb_exists; exists x; split;
    [exact H|apply String.eqb_refl].
Qed.

(** [get_valid_injections] and [get_valid_obfuscations] raise KeyError
    exactly when some feature's category (its text before "::") is not
    one of the seven keys of [ManipulationSpace.features]. *)
Theorem get_valid_features_key_error (l : list string) :
  (get_valid_injections l = None <-> exists x, In x l /\ features (category x) = None) /\
  (get_valid_obfuscations l = None <-> exists x, In x l /\ features (category x) = None).
Proof.
  unfold get_valid_injections, get_valid_obfuscations; split; rewrite filter_opt_none;
    split; intros [x [Hx Hp]]; exists x; split; auto.
  - unfold valid_injection in Hp; destruct (features (category x)); [discriminate|reflexivity].
  - unfold valid_injection; rewrite Hp; reflexivity.
  - destruct (features (category x)); [discriminate|reflexivity].
  - rewrite Hp; reflexivity.
Qed.

(** In [ManipulationSpace.__init__] the injections exclude every malware
    feature, so the filter [f not in inject] on the malware features
    removes nothing: the obfuscations are [get_valid_obfuscations] of all
    malware features, and no candidate is both injected and obfuscated. *)
Theorem ManipulationSpace_init_disjoint (valid_injections malware_features : list string)
  (sp : ManipulationSpace)
  (H : ManipulationSpace_init valid_injections malware_features = Some sp) :
  get_valid_obfuscations malware_features = Some (ms_obfuscate sp) /\
  (forall x, In x (ms_inject sp) -> ~ In x malware_features) /\
  (forall x, In x (ms_inject sp) -> ~ In x (ms_obfuscate sp)).
Proof.
  unfold ManipulationSpace_init in H.
  destruct (get_valid_injections _) as [inj|] eqn:Ei; [|discriminate].
  destruct (get_valid_obfuscations _) as [obf|] eqn:Eo; [|discriminate].
  injection H as <-; simpl.
  unfold get_valid_injections in Ei; apply filter_opt_some in Ei.
  assert (Hnot : forall x, In x inj -> ~ In x malware_features).
  { intros x Hx Hm. rewrite Ei in Hx. apply filter_In in Hx as [Hx _].
    apply filter_In in Hx as [_ Hx]. apply negb_true_iff in Hx.
    apply str_mem_iff in Hm; congruence. }
  assert (Hall : filter (fun f => negb (str_mem f inj)) malware_features = malware_features).
  { apply filter_all_true; intros f Hf. apply negb_true_iff.
    destruct (str_mem f inj) eqn:E; [|reflexivity].
    apply str_mem_iff in E; exfalso; exact (Hnot f E Hf). }
  rewrite Hall in Eo; split; [exact Eo|split; [exact Hnot|]].
  intros x Hx Ho. unfold get_valid_obfuscations in Eo; apply filter_opt_some in Eo.
  rewrite Eo in Ho; apply filter_In in Ho as [Ho _]; exact (Hnot x Hx Ho).
Qed.

Lemma ManipulationSpace_init_disjoint_witness :
  ManipulationSpace_init ["urls::x"; "urls::m"] ["urls::m"; "activities::B"]
    = Some (mkSpace ["urls::x"] ["urls::m"; "activities::B"] []) /\
  get_valid_obfuscations ["urls::m"; "activities::B"] = Some ["urls::m"; "activities::B"].
Proof.
  assert (H : ManipulationSpace_init ["urls::x"; "urls::m"] ["urls::m"; "activities::B"]
    = Some (mkSpace ["urls::x"] ["urls::m"; "activities::B"] [])) by reflexivity.
  split; [exact H|].
  exact (proj1 (ManipulationSpace_init_disjoint _ _ _ H)).
Defined.

(** The goodware candidates prepared by [_generate_candidate_injections]
    already pass [get_valid_injections], so in [ManipulationSpace.__init__]
    the second validity filter keeps them all: the injections are the
    candidates that are not features of the malware, in order. *)
Theorem space_from_candidate_injections (goodware_features : list (list string))
  (candidates malware_features : list string) (sp : ManipulationSpace)
  (Hc : generate_candidate_injections goodware_features = Some candidates)
  (Hs : ManipulationSpace_init candidates malware_features = Some sp) :
  ms_inject sp = filter (fun v => negb (str_mem v malware_features)) candidates.
Proof.
  unfold generate_candidate_injections, get_valid_injections in Hc.
  apply filter_opt_some in Hc.
  unfold ManipulationSpace_init, get_valid_injections in Hs.
  rewrite filter_opt_all_true in Hs.
  - destruct (get_valid_obfuscations _); [|discriminate].
    injection Hs as <-; reflexivity.
  - intros x Hx; apply filter_In in Hx as [Hx _].
    rewrite Hc in Hx; apply filter_In in Hx as [_ Hx].
    destruct (valid_injection x) as [[]|]; congruence.
Qed.

Lemma space_from_candidate_injections_witness :
  generate_candidate_injections [["urls::x"; "activities::A"]; ["urls::m"; "api_calls::Lx;->f()J"]]
    = Some ["urls::x"; "urls::m"] /\
  ManipulationSpace_init ["urls::x"; "urls::m"] ["urls::m"; "activities::B"]
    = Some (mkSpace ["urls::x"] ["urls::m"; "activities::B"] []) /\
  ["urls::x"] = filter (fun v => negb (str_mem v ["urls::m"; "activities::B"])) ["urls::x"; "urls::m"].
Proof.
  assert (Hc : generate_candidate_injections
      [["urls::x"; "activities::A"]; ["urls::m"; "api_calls::Lx;->f()J"]]
    = Some ["urls::x"; "urls::m"]) by reflexivity.
  assert (Hs : ManipulationSpace_init ["urls::x"; "urls::m"] ["urls::m"; "activities::B"]
    = Some (mkSpace ["urls::x"] ["urls::m"; "activities::B"] [])) by reflexivity.
  split; [exact Hc|split; [exact Hs|]].
  exact (space_from_candidate_injections _ _ _ _ Hc Hs).
Defined.

(* ------------------------------------------------------------------ *)
(** * Model probing *)

Lemma dict_get_app (k : string) (a b : dict) :
  dict_get k (a ++ b) = match dict_get k a with Some v => Some v | None => dict_get k b end.
Proof.
  induction a as [|[k' v'] t IH]; simpl; [reflexivity|].
  destruct (String.eqb k k'); [reflexivity|exact IH].
Qed.

Lemma dict_get_merge (k : string) (a b : dict) :
  dict_get k (dict_merge a b) =
  match dict_get k b with Some v => Some v | None => dict_get k a end.
Proof.
  unfold dict_merge; rewrite dict_get_app.
  assert (Hm : dict_get k (map (fun kv => match dict_get (fst kv) b with
                                          | Some v => (fst kv, v)
                                          | None => kv
                                          end) a) =
               match dict_get k a with
               | Some v => Some (match dict_get k b with Some w => w | None => v end)
               | None => None
               end).
  { induction a as [|[k' v'] t IH]; simpl; [reflexivity|].
    destruct (dict_get k' b) eqn:Eb; simpl;
      (destruct (String.eqb_spec k k') as [->|_]; [rewrite ?Eb; reflexivity|exact IH]). }
  rewrite Hm.
  assert (Hf : forall l : dict, dict_get k (filter (fun kv => negb (dict_mem (fst kv) a)) l) =
               if dict_mem k a then None else dict_get k l).
  { induction l as [|[k' v'] t IH]; simpl; [destruct (dict_mem k a); reflexivity|].
    destruct (String.eqb_spec k k') as [->|Hne]; simpl.
    - destruct (dict_mem k' a); simpl; [exact IH|rewrite String.eqb_refl; reflexivity].
    - destruct (negb (dict_mem k' a)); simpl; [|exact IH].
      destruct (String.eqb_spec k k'); [contradiction|exact IH]. }
  rewrite Hf.
  destruct (dict_get k a) eqn:Ea.
  - destruct (dict_get k b); reflexivity.
  - apply dict_get_mem in Ea; rewrite Ea; destruct (dict_get k b); reflexivity.
Qed.

Lemma dict_keys_filter_NoDup (keep : string * list string -> bool) (d : dict) :
  NoDup (map fst d) -> NoDup (map fst (filter keep d)).
Proof.
  induction d as [|[k v] rest IH]; cbn [filter map]; intros Hd; [exact Hd|].
  apply NoDup_cons_iff in Hd as [Hk Hrest].
  destruct (keep (k, v)); cbn [map fst]; [|exact (IH Hrest)].
  apply NoDup_cons; [|exact (IH Hrest)].
  rewrite in_map_iff; intros [[k' v'] [Ek Hin]]; cbn [fst] in Ek; subst k'.
  apply filter_In in Hin; apply Hk, (in_map fst _ (k, v')), (proj1 Hin).
Qed.

Lemma dict_merge_keys (a b : dict) :
  NoDup (map fst a) -> NoDup (map fst b) ->
  NoDup (map fst (dict_merge a b)) /\
  (forall c, In c (map fst (dict_merge a b)) <-> In c (map fst a) \/ In c (map fst b)).
Proof.
  intros Ha Hb; unfold dict_merge; rewrite map_app, map_map.
  assert (Hk : map (fun x => fst (match dict_get (fst x) b with
                                  | Some v => (fst x, v)
                                  | None => x
                                  end)) a = map fst a).
  { apply map_ext; intros x; destruct (dict_get (fst x) b); reflexivity. }
  rewrite Hk; split.
  - apply NoDup_app; [exact Ha| |].
    + apply dict_keys_filter_NoDup; exact Hb.
    + intros x Hx Hx'. apply in_map_iff in Hx' as [kv [<- Hkv]].
      apply filter_In in Hkv as [_ Hkv]. apply negb_true_iff in Hkv.
      apply dict_mem_keys in Hx; congruence.
  - intros c; rewrite in_app_iff; split; intros [H|H]; auto.
    + apply in_map_iff in H as [kv [<- Hkv]]; apply filter_In in Hkv as [Hkv _].
      right; apply in_map; exact Hkv.
    + destruct (dict_mem c a) eqn:E; [left; apply dict_mem_keys; exact E|].
      right; apply in_map_iff in H as [kv [<- Hkv]]. apply in_map, filter_In.
      split; [exact Hkv|rewrite E; reflexivity].
Qed.

Lemma disable_category_In (sp : ManipulationSpace) (d c : string) :
  In c (disabled_categories (disable_category sp d)) <-> c = d \/ In c (disabled_categories sp).
Proof.
  unfold disable_category; simpl.
  destruct (str_mem d (disabled_categories sp)) eqn:E.
  - apply str_mem_iff in E; split; [tauto|]. intros [->|H]; assumption.
  - rewrite in_app_iff; simpl; split; [intros [H|[H|[]]]; [right; exact H|left; symmetry; exact H]|intros [->|H]; [right; left; reflexivity|left; exact H]].
Qed.

(** The loop of [model_probing] when every probe gets a score: one query
    per item, the candidate lists untouched, and a category disabled when
    its probe scored the initial score. *)
Lemma probe_items_spec (score : Manipulations -> option Z) (init_score : Z)
  (inj : dict) (items : dict) :
  Forall (fun cf => score (probe_manipulations inj (fst cf) (snd cf)) <> None) items ->
  forall sp q, exists sp',
    probe_items score init_score inj items sp q = (inl sp', (q + List.length items)%nat) /\
    ms_inject sp' = ms_inject sp /\ ms_obfuscate sp' = ms_obfuscate sp /\
    (forall c, In c (disabled_categories sp') <->
       In c (disabled_categories sp) \/
       exists feats, In (c, feats) items /\
         score (if dict_mem c inj then mkManipulations feats [] else mkManipulations [] feats)
         = Some init_score).
Proof.
  induction items as [|[cat feats] t IH]; intros Hall sp q.
  - exists sp; split; [simpl; rewrite Nat.add_0_r; reflexivity|].
    split; [reflexivity|split; [reflexivity|]].
    intros c; split; [tauto|]. intros [H|[feats [[] _]]]; exact H.
  - inversion Hall as [|? ? Hs Ht]; subst; simpl in Hs.
    destruct (score (probe_manipulations inj cat feats)) as [v|] eqn:Ev; [|contradiction].
    destruct (IH Ht (if Z.eqb init_score v then disable_category sp cat else sp) (S q))
      as [sp' [Hrun [Hi [Ho Hd]]]].
    exists sp'. split.
    { cbn [probe_items]; unfold bind at 1, classify_query_opt; rewrite Ev, Hrun.
      simpl; rewrite Nat.add_succ_r; reflexivity. }
    unfold probe_manipulations in Ev.
    assert (Hsp1 : let sp1 := if Z.eqb init_score v then disable_category sp cat else sp in
                   ms_inject sp1 = ms_inject sp /\ ms_obfuscate sp1 = ms_obfuscate sp /\
                   (forall c, In c (disabled_categories sp1) <->
                      In c (disabled_categories sp) \/
                      (c = cat /\ score (if dict_mem c inj then mkManipulations feats []
                                         else mkManipulations [] feats) = Some init_score))).
    { cbv zeta; destruct (Z.eqb_spec init_score v) as [E|E].
      - split; [reflexivity|split; [reflexivity|]].
        intros c; rewrite disable_category_In; split.
        + intros [->|H]; [right; split; [reflexivity|rewrite Ev, E; reflexivity]|left; exact H].
        + intros [H|[-> _]]; [right; exact H|left; reflexivity].
      - split; [reflexivity|split; [reflexivity|]].
        intros c; split; [tauto|]. intros [H|[-> H]]; [exact H|].
        exfalso; apply E; rewrite Ev in H; injection H as ->; reflexivity. }
    cbv zeta in Hsp1; destruct Hsp1 as [Hi1 [Ho1 Hd1]].
    split; [congruence|split; [congruence|]].
    intros c; rewrite Hd, Hd1; split.
    + intros [[H|[-> H]]|[fs [Hin H]]].
      * left; exact H.
      * right; exists feats; split; [left; reflexivity|exact H].
      * right; exists fs; split; [right; exact Hin|exact H].
    + intros [H|[fs [[Heq|Hin] H]]].
      * left; left; exact H.
      * injection Heq as <- <-; left; right; split; [reflexivity|exact H].
      * right; exists fs; split; [exact Hin|exact H].
Qed.

(** A probe whose classification raises ends the loop: the exception
    propagates after the queries of the probes before it and its own. *)
Lemma probe_items_raise (score : Manipulations -> option Z) (init_score : Z)
  (inj : dict) (pre : dict) (cf : string * list string) (post : dict) :
  Forall (fun cf => score (probe_manipulations inj (fst cf) (snd cf)) <> None) pre ->
  score (probe_manipulations inj (fst cf) (snd cf)) = None ->
  forall sp q, probe_items score init_score inj (pre ++ cf :: post) sp q
               = (inr ClassifyError, (q + List.length pre + 1)%nat).
Proof.
  intros Hpre Hcf; induction Hpre as [|[cat feats] t Hs Ht IH]; intros sp q.
  - destruct cf as [cat feats]; simpl in Hcf |- *.
    unfold bind at 1, classify_query_opt; rewrite Hcf.
    rewrite Nat.add_0_r, Nat.add_1_r; reflexivity.
  - simpl in Hs |- *.
    destruct (score (probe_manipulations inj cat feats)) as [v|] eqn:Ev; [|contradiction].
    unfold bind at 1, classify_query_opt; rewrite Ev, IH.
    f_equal; lia.
Qed.

(** A loop that returns got a score for every probe. *)
Lemma probe_items_inl_scored (score : Manipulations -> option Z) (init_score : Z)
  (inj : dict) (items : dict) :
  forall sp q sp' q', probe_items score init_score inj items sp q = (inl sp', q') ->
  Forall (fun cf => score (probe_manipulations inj (fst cf) (snd cf)) <> None) items.
Proof.
  induction items as [|[cat feats] t IH]; intros sp q sp' q' H; constructor.
  - simpl in H |- *; unfold bind at 1, classify_query_opt in H.
    destruct (score (probe_manipulations inj cat feats)); [discriminate|discriminate H].
  - simpl in H; unfold bind at 1, classify_query_opt in H.
    destruct (score (probe_manipulations inj cat feats)) as [v|]; [|discriminate H].
    eapply IH; exact H.
Qed.

Lemma NoDup_same_length {A : Type} (l1 l2 : list A) :
  NoDup l1 -> NoDup l2 -> (forall x, In x l1 <-> In x l2) -> List.length l1 = List.length l2.
Proof.
  intros H1 H2 H; apply Nat.le_antisymm; apply NoDup_incl_length; auto;
    intros x Hx; apply H; exact Hx.
Qed.

Lemma merge_of_groups_keys (sp : ManipulationSpace) :
  NoDup (map fst (dict_merge (get_injections_by_categories sp)
                             (get_obfuscations_by_categories sp))) /\
  (forall c, In c (map fst (dict_merge (get_injections_by_categories sp)
                                       (get_obfuscations_by_categories sp)))
             <-> In c (map category (ms_inject sp ++ ms_obfuscate sp))).
Proof.
  destruct (group_by_category_spec (ms_inject sp)) as [Hni [Hki _]].
  destruct (group_by_category_spec (ms_obfuscate sp)) as [Hno [Hko _]].
  destruct (dict_merge_keys _ _ Hni Hno) as [Hn Hk].
  split; [exact Hn|]. intros c.
  unfold get_injections_by_categories, get_obfuscations_by_categories.
  rewrite Hk, Hki, Hko, map_app, in_app_iff; tauto.
Qed.

Lemma probed_sets_length (sp : ManipulationSpace) :
  List.length (probed_sets sp) =
  List.length (nodup string_dec (map category (ms_inject sp ++ ms_obfuscate sp))).
Proof.
  unfold probed_sets; rewrite length_map.
  destruct (merge_of_groups_keys sp) as [Hn Hk].
  rewrite <- (length_map fst).
  apply NoDup_same_length; [exact Hn|apply NoDup_nodup|].
  intros c; rewrite Hk, nodup_In; reflexivity.
Qed.

Lemma model_probing_count (score : Manipulations -> option Z) (init_score : Z)
  (sp : ManipulationSpace) (q : nat) :
  Forall (fun m => score m <> None) (probed_sets sp) ->
  exists sp',
    model_probing score init_score sp q =
      (inl sp', (q + List.length (nodup string_dec (map category (ms_inject sp ++ ms_obfuscate sp))))%nat) /\
    ms_inject sp' = ms_inject sp /\ ms_obfuscate sp' = ms_obfuscate sp.
Proof.
  intros Hall; unfold probed_sets in Hall; rewrite Forall_map in Hall.
  unfold model_probing.
  destruct (probe_items_spec score init_score (get_injections_by_categories sp)
              (dict_merge (get_injections_by_categories sp) (get_obfuscations_by_categories sp))
              Hall sp q) as [sp' [Hrun [Hi [Ho _]]]].
  exists sp'; split; [|split; assumption].
  rewrite Hrun, <- probed_sets_length; unfold probed_sets; rewrite length_map; reflexivity.
Qed.

Lemma model_probing_raise (score : Manipulations -> option Z) (init_score : Z)
  (sp : ManipulationSpace) (q : nat) (pre : list Manipulations) (m : Manipulations)
  (post : list Manipulations) :
  probed_sets sp = pre ++ m :: post ->
  Forall (fun m => score m <> None) pre -> score m = None ->
  model_probing score init_score sp q = (inr ClassifyError, (q + List.length pre + 1)%nat).
Proof.
  intros E Hpre Hm.
  unfold probed_sets in E.
  apply map_eq_app in E as [pre' [l2 [El [Hp Hl2]]]].
  apply map_eq_cons in Hl2 as [cf [post' [-> [Hcf _]]]].
  subst; rewrite Forall_map in Hpre; rewrite length_map.
  unfold model_probing; rewrite El.
  apply probe_items_raise; [exact Hpre|exact Hm].
Qed.

(** [model_probing] submits one set per distinct category of the space's
    candidates (injections and obfuscations together), one classifier
    query each. When every probe gets a score it returns after exactly
    these queries with the candidate lists unchanged. [_model_probing] and
    [model_probing] catch nothing: the first probe whose classification
    raises ends the probing with that exception, after the queries of the
    probes before it and its own. *)
Theorem model_probing_queries (score : Manipulations -> option Z) (init_score : Z)
  (sp : ManipulationSpace) (q : nat) :
  List.length (probed_sets sp) =
    List.length (nodup string_dec (map category (ms_inject sp ++ ms_obfuscate sp))) /\
  (Forall (fun m => score m <> None) (probed_sets sp) ->
   exists sp',
     model_probing score init_score sp q = (inl sp', (q + List.length (probed_sets sp))%nat) /\
     ms_inject sp' = ms_inject sp /\ ms_obfuscate sp' = ms_obfuscate sp) /\
  (forall pre m post, probed_sets sp = pre ++ m :: post ->
     Forall (fun m => score m <> None) pre -> score m = None ->
     model_probing score init_score sp q
     = (inr ClassifyError, (q + List.length pre + 1)%nat)).
Proof.
  split; [apply probed_sets_length|split].
  - intros Hall; rewrite probed_sets_length; apply model_probing_count; exact Hall.
  - intros pre m post; apply model_probing_raise.
Qed.

Lemma model_probing_queries_witness :
  let sp := mkSpace ["urls::a"; "activities::A"] ["urls::b"] [] in
  let score := fun m : Manipulations =>
    if str_mem "activities::A" (inject m) then None else Some 90 in
  probed_sets sp = [mkManipulations ["urls::b"] []; mkManipulations ["activities::A"] []] /\
  model_probing score 90 sp 0%nat = (inr ClassifyError, 2%nat) /\
  (exists sp', model_probing (fun _ => Some 90) 90 sp 0%nat = (inl sp', 2%nat) /\
     ms_inject sp' = ms_inject sp /\ ms_obfuscate sp' = ms_obfuscate sp).
Proof.
  intros sp score.
  assert (E : probed_sets sp = [mkManipulations ["urls::b"] []; mkManipulations ["activities::A"] []])
    by reflexivity.
  split; [exact E|split].
  - refine (proj2 (proj2 (model_probing_queries score 90 sp 0%nat))
              [mkManipulations ["urls::b"] []] (mkManipulations ["activities::A"] []) [] E _ _).
    + constructor; [discriminate|constructor].
    + reflexivity.
  - refine (proj1 (proj2 (model_probing_queries (fun _ => Some 90) 90 sp 0%nat)) _).
    rewrite E; repeat constructor; discriminate.
Defined.

Lemma dict_get_In_NoDup (k : string) (v : list string) (d : dict) :
  NoDup (map fst d) -> In (k, v) d <-> dict_get k d = Some v.
Proof.
  induction d as [|[k' v'] t IH]; intros H; simpl; [split; [intros []|discriminate]|].
  inversion H as [|? ? Hk Ht]; subst.
  destruct (String.eqb_spec k k') as [->|Hne]; split.
  - intros [E|E]; [injection E as ->; reflexivity|].
    exfalso; apply Hk; apply (in_map fst) in E; exact E.
  - intros E; injection E as ->; left; reflexivity.
  - intros [E|E]; [injection E as -> ->; contradiction|apply IH; assumption].
  - intros E; right; apply IH; assumption.
Qed.

Lemma filter_category_nil (c : string) (l : list string) :
  filter (fun f => String.eqb (category f) c) l = [] <-> ~ In c (map category l).
Proof.
  induction l as [|x t IH]; simpl; [tauto|].
  destruct (String.eqb_spec (category x) c) as [E|E]; split.
  - discriminate.
  - intros H; exfalso; apply H; left; exact E.
  - intros H [H'|H']; [contradiction|apply IH in H; contradiction].
  - intros H; apply IH; intros H'; apply H; right; exact H'.
Qed.

(** What [model_probing] disables. A category is disabled afterwards when
    it was before, or when its single probe scored exactly the initial
    score. The probe of a category with injections only injects them, the
    probe of a category with obfuscations only obfuscates them, and the
    probe of a category with both injects its obfuscation candidates
    ([{**inj, **obf}] keeps the obfuscation list, and the key is found
    among the injection categories). *)
Theorem model_probing_disabled (score : Manipulations -> option Z) (init_score : Z)
  (sp : ManipulationSpace) (q : nat) :
  (Forall (fun m => score m <> None) (probed_sets sp) ->
   exists sp' q', model_probing score init_score sp q = (inl sp', q')) /\
  forall sp' q', model_probing score init_score sp q = (inl sp', q') ->
  forall c,
    In c (disabled_categories sp') <->
    In c (disabled_categories sp) \/
    (In c (map category (ms_inject sp)) /\ ~ In c (map category (ms_obfuscate sp)) /\
     score (mkManipulations (filter (fun f => String.eqb (category f) c) (ms_inject sp)) [])
     = Some init_score) \/
    (~ In c (map category (ms_inject sp)) /\ In c (map category (ms_obfuscate sp)) /\
     score (mkManipulations [] (filter (fun f => String.eqb (category f) c) (ms_obfuscate sp)))
     = Some init_score) \/
    (In c (map category (ms_inject sp)) /\ In c (map category (ms_obfuscate sp)) /\
     score (mkManipulations (filter (fun f => String.eqb (category f) c) (ms_obfuscate sp)) [])
     = Some init_score).
Proof.
  split.
  { intros Hall; destruct (model_probing_count score init_score sp q Hall) as [sp' [H _]].
    do 2 eexists; exact H. }
  intros sp0 q0 H0.
  unfold model_probing in H0 |- *.
  pose proof (probe_items_inl_scored _ _ _ _ _ _ _ _ H0) as Hall.
  destruct (probe_items_spec score init_score (get_injections_by_categories sp)
              (dict_merge (get_injections_by_categories sp) (get_obfuscations_by_categories sp))
              Hall sp q) as [sp' [Hrun [_ [_ Hd]]]].
  rewrite Hrun in H0; injection H0 as <- _.
  intros c; rewrite Hd.
  destruct (merge_of_groups_keys sp) as [Hn _].
  destruct (group_by_category_spec (ms_inject sp)) as [_ [Hki Hgi]].
  destruct (group_by_category_spec (ms_obfuscate sp)) as [_ [_ Hgo]].
  assert (Hmem : dict_mem c (get_injections_by_categories sp) = true <->
                 In c (map category (ms_inject sp))).
  { rewrite dict_mem_keys; apply Hki. }
  assert (Hget : forall feats,
            In (c, feats) (dict_merge (get_injections_by_categories sp)
                                      (get_obfuscations_by_categories sp)) <->
            dict_get c (dict_merge (get_injections_by_categories sp)
                                   (get_obfuscations_by_categories sp)) = Some feats)
    by (intros; apply dict_get_In_NoDup; exact Hn).
  rewrite dict_get_merge in Hget.
  unfold get_obfuscations_by_categories, get_injections_by_categories in Hget, Hmem.
  rewrite Hgo, Hgi in Hget.
  pose proof (filter_category_nil c (ms_inject sp)) as Ni.
  pose proof (filter_category_nil c (ms_obfuscate sp)) as No.
  destruct (filter (fun f => String.eqb (category f) c) (ms_obfuscate sp)) as [|o os] eqn:EO;
  destruct (filter (fun f => String.eqb (category f) c) (ms_inject sp)) as [|i is] eqn:EI.
  - (* no candidate of category c *)
    assert (A : ~ In c (map category (ms_inject sp))) by (apply Ni; reflexivity).
    split; [intros [H|[fs [H _]]]; [left; exact H|apply Hget in H; discriminate]|].
    intros [H|[[H _]|[[_ [H _]]|[_ [H _]]]]]; [left; exact H|contradiction|
      exfalso; apply (proj1 No eq_refl); exact H|exfalso; apply (proj1 No eq_refl); exact H].
  - (* injections only *)
    assert (A : In c (map category (ms_inject sp))).
    { destruct (In_dec string_dec c (map category (ms_inject sp))) as [H|H]; [exact H|].
      apply Ni in H; discriminate. }
    assert (B : ~ In c (map category (ms_obfuscate sp))) by (apply No; reflexivity).
    assert (M : dict_mem c (get_injections_by_categories sp) = true) by (apply Hmem; exact A).
    split.
    + intros [H|[fs [H S]]]; [left; exact H|]. apply Hget in H; injection H as <-.
      rewrite M in S. right; left; split; [exact A|split; [exact B|exact S]].
    + intros [H|[[_ [_ S]]|[[H _]|[_ [H _]]]]]; [left; exact H| |contradiction|contradiction].
      right; exists (i :: is); split; [apply Hget; reflexivity|rewrite M; exact S].
  - (* obfuscations only *)
    assert (A : ~ In c (map category (ms_inject sp))) by (apply Ni; reflexivity).
    assert (B : In c (map category (ms_obfuscate sp))).
    { destruct (In_dec string_dec c (map category (ms_obfuscate sp))) as [H|H]; [exact H|].
      apply No in H; discriminate. }
    assert (M : dict_mem c (get_injections_by_categories sp) = false).
    { destruct (dict_mem c (get_injections_by_categories sp)) eqn:E; [|reflexivity].
      apply Hmem in E; contradiction. }
    split.
    + intros [H|[fs [H S]]]; [left; exact H|]. apply Hget in H; injection H as <-.
      rewrite M in S. right; right; left; split; [exact A|split; [exact B|exact S]].
    + intros [H|[[H _]|[[_ [_ S]]|[H _]]]]; [left; exact H|contradiction| |contradiction].
      right; exists (o :: os); split; [apply Hget; reflexivity|rewrite M; exact S].
  - (* both *)
    assert (A : In c (map category (ms_inject sp))).
    { destruct (In_dec string_dec c (map category (ms_inject sp))) as [H|H]; [exact H|].
      apply Ni in H; discriminate. }
    assert (B : In c (map category (ms_obfuscate sp))).
    { destruct (In_dec string_dec c (map category (ms_obfuscate sp))) as [H|H]; [exact H|].
      apply No in H; discriminate. }
    assert (M : dict_mem c (get_injections_by_categories sp) = true) by (apply Hmem; exact A).
    split.
    + intros [H|[fs [H S]]]; [left; exact H|]. apply Hget in H; injection H as <-.
      rewrite M in S. right; right; right; split; [exact A|split; [exact B|exact S]].
    + intros [H|[[_ [H _]]|[[H _]|[_ [_ S]]]]]; [left; exact H|contradiction|contradiction|].
      right; exists (o :: os); split; [apply Hget; reflexivity|rewrite M; exact S].
Qed.

Lemma model_probing_disabled_witness :
  let sp := mkSpace ["urls::a"] ["activities::A"] [] in
  let score := fun m : Manipulations =>
    if str_mem "urls::a" (inject m) then Some 90 else Some 50 in
  model_probing score 90 sp 0%nat = (inl (mkSpace ["urls::a"] ["activities::A"] ["urls"]), 2%nat) /\
  In "urls" (disabled_categories (mkSpace ["urls::a"] ["activities::A"] ["urls"])).
Proof.
  intros sp score.
  assert (H : model_probing score 90 sp 0%nat
              = (inl (mkSpace ["urls::a"] ["activities::A"] ["urls"]), 2%nat)) by reflexivity.
  split; [exact H|].
  apply (proj2 (proj2 (model_probing_disabled score 90 sp 0%nat) _ _ H "urls")).
  right; left; split; [left; reflexivity|split; [|reflexivity]].
  simpl; intros [E|[]]; discriminate E.
Defined.

(* ------------------------------------------------------------------ *)
(** * The full index vector and the splits of the error-free filter *)

Lemma map_nth_seq_self {A : Type} (l : list A) (d : A) :
  map (fun i => nth i l d) (seq 0 (List.length l)) = l.
Proof.
  induction l as [|x t IH]; [reflexivity|].
  simpl; f_equal. rewrite <- seq_shift, map_map; exact IH.
Qed.

Lemma from_vector_get_idxs (m : Manipulations) :
  get_manipulations_from_vector m (get_idxs m) = Some m.
Proof.
  rewrite get_manipulations_from_vector_in_range by apply get_idxs_in_range.
  unfold get_idxs; rewrite !filter_app.
  set (ni := List.length (inject m)); set (no := List.length (obfuscate m)).
  rewrite (filter_all_true (fun i => i <? Z.of_nat ni) (map Z.of_nat (seq 0 ni))).
  2:{ intros i Hi; apply in_map_iff in Hi as [j [<- Hj]]; apply in_seq in Hj.
      apply Z.ltb_lt; lia. }
  rewrite (filter_all_false (fun i => i <? Z.of_nat ni)).
  2:{ intros i Hi; apply in_map_iff in Hi as [j [<- Hj]]; apply Z.ltb_ge; lia. }
  rewrite (filter_all_false (fun i => Z.of_nat ni <=? i) (map Z.of_nat (seq 0 ni))).
  2:{ intros i Hi; apply in_map_iff in Hi as [j [<- Hj]]; apply in_seq in Hj.
      apply Z.leb_gt; lia. }
  rewrite (filter_all_true (fun i => Z.of_nat ni <=? i)).
  2:{ intros i Hi; apply in_map_iff in Hi as [j [<- Hj]]; apply Z.leb_le; lia. }
  rewrite !app_nil_r, app_nil_l, !map_map.
  rewrite (map_ext_in _ (fun i => nth i (inject m) "")).
  2:{ intros i Hi; apply in_seq in Hi; unfold candidate_at; fold ni.
      rewrite (proj2 (Z.ltb_lt _ _)) by lia; rewrite Nat2Z.id; reflexivity. }
  rewrite (map_ext_in _ (fun i => nth i (obfuscate m) "") (seq 0 no)).
  2:{ intros i Hi; unfold candidate_at; fold ni.
      rewrite (proj2 (Z.ltb_ge _ _)) by lia.
      replace (Z.of_nat i + Z.of_nat ni - Z.of_nat ni) with (Z.of_nat i) by lia.
      rewrite Nat2Z.id; reflexivity. }
  unfold ni, no; rewrite !map_nth_seq_self; destruct m; reflexivity.
Qed.

(** [get_manipulations_from_vector(get_idxs())] gives back the same
    injections and obfuscations, in order. *)
Theorem get_manipulations_from_full_vector (m : Manipulations) :
  get_manipulations_from_vector m (get_idxs m) = Some m.
Proof. apply from_vector_get_idxs. Qed.

Lemma stride_from_0_1 {A : Type} (l : list A) : stride_from 0 1 l = l.
Proof. induction l as [|x t IH]; simpl; [reflexivity|]; rewrite IH; reflexivity. Qed.

Lemma sub_manipulations_one (m : Manipulations) :
  (1 <= Manipulations_len m)%nat -> sub_manipulations 1 m = Some [m].
Proof.
  intros H; unfold sub_manipulations, sub_vectors, split_count.
  rewrite Z.min_l by lia; simpl.
  rewrite stride_from_0_1, from_vector_get_idxs; reflexivity.
Qed.

(** With [n_jobs = 1] a failing set of two or more candidates is "split"
    into [idxs[0::1]], the whole set again: [_recurse_apply_manipulations]
    calls itself on the same set until Python's recursion limit, whatever
    that limit is. *)
Theorem error_free_n_jobs_one_diverges (build : Manipulations -> bool) (baseline_ok : bool)
  (m : Manipulations) (fuel : nat)
  (Hb : build m = false) (Hlen : (2 <= Manipulations_len m)%nat) :
  get_error_free_manipulations build 1 baseline_ok fuel m = None.
Proof.
  unfold get_error_free_manipulations; destruct baseline_ok; [|reflexivity].
  induction fuel as [|f IH]; [reflexivity|].
  rewrite recurse_apply_manipulations_cons, Hb.
  rewrite (proj2 (Nat.ltb_lt 1 (Manipulations_len m))) by lia.
  rewrite sub_manipulations_one by lia; rewrite IH; reflexivity.
Qed.

Lemma error_free_n_jobs_one_diverges_witness :
  (fun _ : Manipulations => false) (mkManipulations ["urls::a"; "urls::b"] []) = false /\
  (2 <= Manipulations_len (mkManipulations ["urls::a"; "urls::b"] []))%nat /\
  get_error_free_manipulations (fun _ => false) 1 true 50 (mkManipulations ["urls::a"; "urls::b"] [])
  = None.
Proof.
  assert (Hb : (fun _ : Manipulations => false) (mkManipulations ["urls::a"; "urls::b"] []) = false)
    by reflexivity.
  assert (Hl : (2 <= Manipulations_len (mkManipulations ["urls::a"; "urls::b"] []))%nat)
    by (apply Nat.leb_le; reflexivity).
  split; [exact Hb|split; [exact Hl|]].
  exact (error_free_n_jobs_one_diverges _ true _ 50 Hb Hl).
Defined.

Lemma stride_from_short {A : Type} (c n : nat) (l : list A) :
  (List.length l <= c)%nat -> stride_from c n l = [].
Proof.
  revert c; induction l as [|x t IH]; intros c H; [reflexivity|].
  destruct c as [|c]; simpl in H; [lia|]. simpl; apply IH; lia.
Qed.

Lemma stride_from_single {A : Type} (i n : nat) (l : list A) (d : A) :
  (i < List.length l <= i + n)%nat -> stride_from i n l = [nth i l d].
Proof.
  revert i; induction l as [|x t IH]; intros i H; simpl in H; [lia|].
  destruct i as [|i].
  - simpl; rewrite stride_from_short by lia; reflexivity.
  - simpl; apply IH; lia.
Qed.

Lemma map_opt_app {A B : Type} (f : A -> option B) (l1 l2 : list A) :
  map_opt f (l1 ++ l2) =
  match map_opt f l1, map_opt f l2 with
  | Some a, Some b => Some (a ++ b)
  | _, _ => None
  end.
Proof.
  induction l1 as [|x t IH]; simpl.
  - destruct (map_opt f l2); reflexivity.
  - destruct (f x); [|reflexivity]. rewrite IH.
    destruct (map_opt f t), (map_opt f l2); reflexivity.
Qed.

Lemma seq_offset (k n : nat) : seq k n = map (Nat.add k) (seq 0 n).
Proof.
  revert k; induction n as [|n IH]; intros k; [reflexivity|].
  simpl; f_equal; [lia|]. rewrite IH, (IH 1%nat), map_map.
  apply map_ext; intros; lia.
Qed.

Lemma sub_manipulations_singletons (n_jobs : Z) (m : Manipulations) :
  Z.of_nat (Manipulations_len m) <= n_jobs ->
  sub_manipulations n_jobs m = Some (singletons m).
Proof.
  intros Hn; unfold sub_manipulations, sub_vectors, split_count.
  rewrite Z.min_r by lia; rewrite Nat2Z.id.
  rewrite (map_ext_in _ (fun i => [Z.of_nat i])).
  2:{ intros i Hi; apply in_seq in Hi.
      rewrite (stride_from_single _ _ _ (Z.of_nat 0)).
      - rewrite get_idxs_seq, map_nth, seq_nth by lia; reflexivity.
      - rewrite get_idxs_seq, length_map, length_seq; lia. }
  unfold Manipulations_len; rewrite seq_app, map_app, map_opt_app, !map_opt_map.
  set (ni := List.length (inject m)); set (no := List.length (obfuscate m)).
  rewrite (map_opt_ext_some _ (fun i => mkManipulations [nth i (inject m) ""] [])).
  2:{ intros i Hi; apply in_seq in Hi.
      rewrite get_manipulations_from_vector_in_range.
      2:{ apply in_range_spec; intros j [<-|[]]; unfold Manipulations_len; lia. }
      simpl; fold ni; rewrite (proj2 (Z.ltb_lt _ _)) by lia.
      rewrite (proj2 (Z.leb_gt _ _)) by lia; simpl.
      unfold candidate_at; fold ni; rewrite (proj2 (Z.ltb_lt _ _)) by lia.
      rewrite Nat2Z.id; reflexivity. }
  rewrite (map_opt_ext_some _ (fun i => mkManipulations [] [nth (i - ni) (obfuscate m) ""])).
  2:{ intros i Hi; apply in_seq in Hi.
      rewrite get_manipulations_from_vector_in_range.
      2:{ apply in_range_spec; intros j [<-|[]]; unfold Manipulations_len; lia. }
      simpl; fold ni; rewrite (proj2 (Z.ltb_ge _ _)) by lia.
      rewrite (proj2 (Z.leb_le _ _)) by lia; simpl.
      unfold candidate_at; fold ni; rewrite (proj2 (Z.ltb_ge _ _)) by lia.
      rewrite <- Nat2Z.inj_sub, Nat2Z.id by lia; reflexivity. }
  unfold singletons; f_equal; f_equal.
  - transitivity (map (fun x => mkManipulations [x] [])
                    (map (fun i => nth i (inject m) "") (seq 0 ni))).
    + rewrite map_map; reflexivity.
    + f_equal; apply map_nth_seq_self.
  - rewrite seq_offset, map_map.
    transitivity (map (fun x => mkManipulations [] [x])
                    (map (fun i => nth i (obfuscate m) "") (seq 0 no))).
    + rewrite map_map; apply map_ext; intros i; do 3 f_equal; lia.
    + f_equal; apply map_nth_seq_self.
Qed.

Lemma recurse_apply_manipulations_small (build : Manipulations -> bool) (n_jobs : Z)
  (f : nat) (ss : list Manipulations) :
  (forall s, In s ss -> (Manipulations_len s <= 1)%nat) ->
  recurse_apply_manipulations build n_jobs (S f) ss =
  Some (mkManipulations
          (flat_map (fun s => if build s then inject s else []) ss)
          (flat_map (fun s => if build s then obfuscate s else []) ss)).
Proof.
  induction ss as [|s t IH]; intros H; [reflexivity|].
  rewrite recurse_apply_manipulations_cons, IH by (intros; apply H; right; assumption).
  unfold app_manip; cbn [flat_map inject obfuscate].
  destruct (build s) eqn:E; [reflexivity|].
  rewrite (proj2 (Nat.ltb_ge 1 (Manipulations_len s))) by (apply H; left; reflexivity).
  reflexivity.
Qed.

Lemma flat_map_singletons_inject (build : Manipulations -> bool) (m : Manipulations) :
  flat_map (fun s => if build s then inject s else []) (singletons m) =
  filter (fun x => build (mkManipulations [x] [])) (inject m).
Proof.
  unfold singletons; rewrite flat_map_app.
  replace (flat_map (fun s => if build s then inject s else [])
             (map (fun x => mkManipulations [] [x]) (obfuscate m))) with (@nil string).
  2:{ induction (obfuscate m) as [|x t IH]; [reflexivity|]; simpl.
      destruct (build _); exact IH. }
  rewrite app_nil_r; induction (inject m) as [|x t IH]; [reflexivity|]; simpl.
  destruct (build _); simpl; rewrite IH; reflexivity.
Qed.

Lemma flat_map_singletons_obfuscate (build : Manipulations -> bool) (m : Manipulations) :
  flat_map (fun s => if build s then obfuscate s else []) (singletons m) =
  filter (fun x => build (mkManipulations [] [x])) (obfuscate m).
Proof.
  unfold singletons; rewrite flat_map_app.
  replace (flat_map (fun s => if build s then obfuscate s else [])
             (map (fun x => mkManipulations [x] []) (inject m))) with (@nil string).
  2:{ induction (inject m) as [|x t IH]; [reflexivity|]; simpl.
      destruct (build _); exact IH. }
  simpl; induction (obfuscate m) as [|x t IH]; [reflexivity|]; simpl.
  destruct (build _); simpl; rewrite IH; reflexivity.
Qed.

(** With [n_jobs >= len(manipulation)] and a failing full build, the
    strides [idxs[i::n]] are single indices: every candidate is built on
    its own, and exactly those whose one-candidate build succeeds are
    kept, in their order. *)
Theorem error_free_n_jobs_all_singletons (build : Manipulations -> bool) (n_jobs : Z)
  (m : Manipulations) (fuel : nat)
  (Hb : build m = false) (Hn : Z.of_nat (Manipulations_len m) <= n_jobs)
  (Hf : (2 <= fuel)%nat) :
  get_error_free_manipulations build n_jobs true fuel m =
  Some (mkManipulations
          (filter (fun x => build (mkManipulations [x] [])) (inject m))
          (filter (fun x => build (mkManipulations [] [x])) (obfuscate m))).
Proof.
  unfold get_error_free_manipulations.
  destruct fuel as [|[|f]]; [lia|lia|].
  rewrite recurse_apply_manipulations_cons, Hb.
  destruct (1 <? Manipulations_len m)%nat eqn:Hl.
  - apply Nat.ltb_lt in Hl.
    rewrite sub_manipulations_singletons by exact Hn.
    rewrite recurse_apply_manipulations_small.
    2:{ intros s Hs; unfold singletons in Hs; apply in_app_or in Hs as [Hs|Hs];
        apply in_map_iff in Hs as [x [<- _]]; reflexivity. }
    rewrite flat_map_singletons_inject, flat_map_singletons_obfuscate.
    simpl; unfold app_manip; simpl; rewrite !app_nil_r; reflexivity.
  - apply Nat.ltb_ge in Hl; unfold Manipulations_len in Hl.
    destruct m as [[|x [|y t]] [|z [|w u]]]; simpl in Hl |- *; try lia;
      try (rewrite Hb); reflexivity.
Qed.

Lemma error_free_n_jobs_all_singletons_witness :
  let build := fun s : Manipulations => negb (str_mem "urls::bad" (inject s)) in
  let m := mkManipulations ["urls::a"; "urls::bad"] ["api_calls::x"] in
  build m = false /\ Z.of_nat (Manipulations_len m) <= 4 /\
  get_error_free_manipulations build 4 true 3 m =
  Some (mkManipulations ["urls::a"] ["api_calls::x"]).
Proof.
  intros build m.
  assert (Hb : build m = false) by reflexivity.
  assert (Hn : Z.of_nat (Manipulations_len m) <= 4) by (vm_compute; discriminate).
  split; [exact Hb|split; [exact Hn|]].
  rewrite (error_free_n_jobs_all_singletons build 4 m 3 Hb Hn ltac:(lia)).
  reflexivity.
Defined.

(* ------------------------------------------------------------------ *)
(** * The error-free cache *)

Lemma store_get_filter_none (name : string) (p : string * Manipulations -> bool)
  (st : cache_store) :
  store_get name st = None -> store_get name (filter p st) = None.
Proof.
  induction st as [|[k v] t IH]; intros H; [reflexivity|].
  simpl in H; destruct (String.eqb name k) eqn:E; [discriminate|].
  simpl; destruct (p (k, v)); simpl; [rewrite E|]; apply IH; exact H.
Qed.

(** After a cache miss, the result is pickled under the file name of the
    result, while the next load looks up the file name of the input:
    the next call finds the saved result exactly when the two names
    agree, and misses again otherwise. *)
Theorem error_free_cache_reload (build : Manipulations -> bool) (n_jobs : Z)
  (baseline_ok : bool) (fuel : nat) (cache_dir : option string) (stem : string)
  (st st' : cache_store) (m r : Manipulations)
  (Hen : cache_enabled cache_dir = true)
  (Hmiss : load_error_free_manipulations cache_dir stem m st = None)
  (Hc : get_error_free_manipulations_cached build n_jobs baseline_ok fuel cache_dir stem st m
        = Some (r, st')) :
  load_error_free_manipulations cache_dir stem m st' =
  if String.eqb (cache_filename stem r) (cache_filename stem m) then Some r else None.
Proof.
  unfold get_error_free_manipulations_cached in Hc; rewrite Hmiss in Hc.
  destruct (get_error_free_manipulations build n_jobs baseline_ok fuel m) as [r0|];
    [|discriminate].
  injection Hc as -> <-.
  unfold load_error_free_manipulations, save_error_free_manipulations in *.
  rewrite Hen in *; unfold store_put; cbn [store_get].
  rewrite String.eqb_sym; destruct (String.eqb (cache_filename stem r) (cache_filename stem m));
    [reflexivity|].
  apply store_get_filter_none; exact Hmiss.
Qed.

Lemma error_free_cache_reload_witness :
  let m := mkManipulations ["urls::a"] [] in
  let b := fun _ : Manipulations => false in
  cache_enabled (Some "cache") = true /\
  load_error_free_manipulations (Some "cache") "app" m [] = None /\
  get_error_free_manipulations_cached b 1 true 3 (Some "cache") "app" [] m
  = Some (empty_manip, [("app.all.pkl", empty_manip)]) /\
  load_error_free_manipulations (Some "cache") "app" m [("app.all.pkl", empty_manip)] = None.
Proof.
  intros m b.
  assert (Hen : cache_enabled (Some "cache") = true) by reflexivity.
  assert (Hmiss : load_error_free_manipulations (Some "cache") "app" m [] = None)
    by reflexivity.
  assert (Hc : get_error_free_manipulations_cached b 1 true 3 (Some "cache") "app" [] m
               = Some (empty_manip, [("app.all.pkl", empty_manip)])) by reflexivity.
  split; [exact Hen|split; [exact Hmiss|split; [exact Hc|]]].
  rewrite (error_free_cache_reload b 1 true 3 _ "app" [] _ m empty_manip Hen Hmiss Hc).
  reflexivity.
Defined.

(* ------------------------------------------------------------------ *)
(** * The sets filled by [_manipulate] *)

Lemma after_sep_none_iff (s : string) : after_sep s = None <-> has_sep s = false.
Proof.
  induction s as [|c rest IH]; [split; reflexivity|].
  destruct rest as [|c' rest']; [split; reflexivity|].
  cbn [after_sep has_sep].
  destruct (Ascii.eqb c ":" && Ascii.eqb c' ":"); [split; discriminate|].
  exact IH.
Qed.

Lemma fold_opt_none_iff {A B : Type} (f : B -> A -> option B) (P : A -> Prop)
  (HP : forall b x, f b x = None <-> P x) (l : list A) (b : B) :
  fold_opt f l b = None <-> exists x, In x l /\ P x.
Proof.
  revert b; induction l as [|x t IH]; intros b; simpl.
  - split; [discriminate|intros [_ [[] _]]].
  - destruct (f b x) as [b'|] eqn:E.
    + rewrite IH; split.
      * intros [y [Hy Py]]; exists y; split; [right|]; assumption.
      * intros [y [[<-|Hy] Py]]; [|exists y; split; assumption].
        apply (HP b) in Py; congruence.
    + split; [intros _|reflexivity]. exists x; split; [left; reflexivity|].
      apply (HP b); exact E.
Qed.

Lemma inject_step_none (st : ManipSets) (x : string) :
  inject_step st x = None <-> has_sep x = false.
Proof.
  rewrite <- after_sep_none_iff; unfold inject_step, split_second.
  destruct (after_sep x); simpl; split; congruence.
Qed.

Lemma obfuscate_step_none (st : ManipSets) (x : string) :
  obfuscate_step st x = None <-> has_sep x = false.
Proof.
  rewrite <- after_sep_none_iff; unfold obfuscate_step, split_second.
  destruct (after_sep x); simpl; split; congruence.
Qed.

(** [_manipulate] raises (an IndexError of [split("::")[1]]) exactly when
    some candidate, to inject or to obfuscate, has no "::". *)
Theorem manipulate_index_error (m : Manipulations) :
  manipulate_sets m = None <->
  exists x, In x (inject m ++ obfuscate m) /\ has_sep x = false.
Proof.
  unfold manipulate_sets.
  destruct (fold_opt inject_step (inject m) reset_sets) as [st|] eqn:E.
  - rewrite (fold_opt_none_iff _ _ obfuscate_step_none); split.
    + intros [x [Hx Px]]; exists x; split; [apply in_or_app; right|]; assumption.
    + intros [x [Hx Px]]; apply in_app_or in Hx as [Hx|Hx]; [|exists x; split; assumption].
      exfalso; assert (N : fold_opt inject_step (inject m) reset_sets = None)
        by (apply (fold_opt_none_iff _ _ inject_step_none); exists x; split; assumption).
      congruence.
  - apply (fold_opt_none_iff _ _ inject_step_none) in E as [x [Hx Px]].
    split; [intros _|reflexivity]; exists x; split; [apply in_or_app; left|]; assumption.
Qed.

Lemma set_add_In (x y : string) (l : list string) :
  In y (set_add x l) <-> In y l \/ y = x.
Proof.
  unfold set_add; destruct (str_mem x l) eqn:E.
  - apply str_mem_iff in E; split; [intros H; left; exact H|intros [H| ->]; assumption].
  - rewrite in_app_iff; simpl; split; intros [H|H]; auto; destruct H as [<-|[]]; auto.
Qed.

Lemma fold_opt_field (f : ManipSets -> string -> option ManipSets) (F : ManipSets -> list string)
  (R : string -> string -> Prop)
  (Hstep : forall st x st', f st x = Some st' ->
           forall y, In y (F st') <-> In y (F st) \/ R x y)
  (l : list string) :
  forall st st', fold_opt f l st = Some st' ->
  forall y, In y (F st') <-> In y (F st) \/ exists x, In x l /\ R x y.
Proof.
  induction l as [|x t IH]; intros st st' H y; simpl in H.
  - injection H as <-; split; [intros Hy; left; exact Hy|].
    intros [Hy|[x [[] _]]]; exact Hy.
  - destruct (f st x) as [st1|] eqn:E; [|discriminate].
    rewrite (IH _ _ H y), (Hstep _ _ _ E y); split.
    + intros [[Hy|Hy]|[z [Hz Rz]]]; [left; exact Hy|right; exists x; split; [left|]; auto|].
      right; exists z; split; [right|]; assumption.
    + intros [Hy|[z [[<-|Hz] Rz]]]; [left; left; exact Hy|left; right; exact Rz|].
      right; exists z; split; assumption.
Qed.

Lemma fold_opt_field_same (f : ManipSets -> string -> option ManipSets)
  (F : ManipSets -> list string)
  (Hstep : forall st x st', f st x = Some st' -> F st' = F st) (l : list string) :
  forall st st', fold_opt f l st = Some st' -> F st' = F st.
Proof.
  induction l as [|x t IH]; intros st st' H; simpl in H.
  - injection H as <-; reflexivity.
  - destruct (f st x) as [st1|] eqn:E; [|discriminate].
    rewrite (IH _ _ H); exact (Hstep _ _ _ E).
Qed.

Ltac sets_step_solve :=
  first [ intros [Hy|Hy]; [left; exact Hy|right; split; [congruence|rewrite Hy; reflexivity]]
        | intros [Hy|[Hc Hs]]; [left; exact Hy|right; congruence]
        | intros Hy; left; exact Hy
        | intros [Hy|[Hc Hs]]; [exact Hy|exfalso; congruence] ].

Lemma inject_step_sets (st : ManipSets) (x : string) (st' : ManipSets) :
  inject_step st x = Some st' ->
  (forall y, In y (urls_to_inject st') <->
     In y (urls_to_inject st) \/ (category x = "urls" /\ split_second x = Some y)) /\
  (forall y, In y (apis_to_inject st') <->
     In y (apis_to_inject st) \/ (category x = "api_calls" /\ split_second x = Some y)) /\
  string_to_encrypt st' = string_to_encrypt st /\
  android_api_to_reflect st' = android_api_to_reflect st /\
  class_to_rename st' = class_to_rename st.
Proof.
  unfold inject_step; destruct (split_second x) as [feat|] eqn:E; [|discriminate].
  intros H; injection H as <-.
  destruct (String.eqb (category x) "urls") eqn:U;
    [apply String.eqb_eq in U|apply String.eqb_neq in U];
  [|destruct (String.eqb (category x) "api_calls") eqn:A;
      [apply String.eqb_eq in A|apply String.eqb_neq in A]];
  cbn [urls_to_inject apis_to_inject string_to_encrypt android_api_to_reflect class_to_rename].
  all: split; [|split; [|split; [reflexivity|split; reflexivity]]];
    intros y; rewrite ?set_add_In; split; sets_step_solve.
Qed.

Ltac in_lit_contra :=
  first [ contradiction
        | repeat match goal with
                 | H : In _ [] |- _ => destruct H
                 | H : In _ (_ :: _) |- _ => destruct H as [H|H]
                 end; congruence ].

Ltac obf_step_solve :=
  first [ intros [Hy|Hy];
          [left; exact Hy
          |right; split; [first [assumption|congruence]
                         |first [rewrite Hy; reflexivity
                                |eexists; split; [reflexivity|exact Hy]]]]
        | intros [Hy|[Hc Hs]];
          [left; exact Hy|right; first [congruence|destruct Hs as [f [Hf ->]]; injection Hf as ->; reflexivity]]
        | intros Hy; left; exact Hy
        | intros [Hy|[Hc Hs]]; [exact Hy|exfalso; in_lit_contra] ].

Lemma obfuscate_step_sets (st : ManipSets) (x : string) (st' : ManipSets) :
  obfuscate_step st x = Some st' ->
  (forall y, In y (string_to_encrypt st') <->
     In y (string_to_encrypt st) \/ (category x = "urls" /\ split_second x = Some y)) /\
  (forall y, In y (android_api_to_reflect st') <->
     In y (android_api_to_reflect st) \/
     (In (category x) ["api_calls"; "suspicious_calls"] /\ split_second x = Some y)) /\
  (forall y, In y (class_to_rename st') <->
     In y (class_to_rename st) \/
     (In (category x) ["activities"; "services"; "providers"; "receivers"] /\
      exists f, split_second x = Some f /\
                y = String.append "L" (String.append (replace_dot f) ";"))) /\
  urls_to_inject st' = urls_to_inject st /\
  apis_to_inject st' = apis_to_inject st.
Proof.
  unfold obfuscate_step; destruct (split_second x) as [feat|] eqn:E; [|discriminate].
  destruct (String.eqb (category x) "urls") eqn:U;
    [apply String.eqb_eq in U|apply String.eqb_neq in U];
  [|destruct (str_mem (category x) ["api_calls"; "suspicious_calls"]) eqn:S;
      [apply str_mem_iff in S|apply not_true_iff_false in S; rewrite str_mem_iff in S];
    [|destruct (str_mem (category x) ["activities"; "services"; "providers"; "receivers"]) eqn:C;
        [apply str_mem_iff in C|apply not_true_iff_false in C; rewrite str_mem_iff in C]]];
  intros H; injection H as <-;
  cbn [urls_to_inject apis_to_inject string_to_encrypt android_api_to_reflect class_to_rename].
  all: split; [|split; [|split; [|split; reflexivity]]];
    intros y; rewrite ?set_add_In; split; obf_step_solve.
Qed.

(** When [_manipulate] gets past its two loops, the five sets of the
    [ManipulationStatus] hold exactly: the identifiers of the "urls" and
    "api_calls" candidates to inject ([urls_to_inject], [apis_to_inject]);
    the identifiers of the "urls" candidates to obfuscate
    ([string_to_encrypt]) and of the "api_calls"/"suspicious_calls" ones
    ([android_api_to_reflect]); and "L" + the identifier with "." replaced
    by "/" + ";" for the component candidates ([class_to_rename]). Every
    other category is dropped. *)
Theorem manipulate_sets_contents (m : Manipulations) (st : ManipSets)
  (H : manipulate_sets m = Some st) :
  (forall y, In y (urls_to_inject st) <->
     exists x, In x (inject m) /\ category x = "urls" /\ split_second x = Some y) /\
  (forall y, In y (apis_to_inject st) <->
     exists x, In x (inject m) /\ category x = "api_calls" /\ split_second x = Some y) /\
  (forall y, In y (string_to_encrypt st) <->
     exists x, In x (obfuscate m) /\ category x = "urls" /\ split_second x = Some y) /\
  (forall y, In y (android_api_to_reflect st) <->
     exists x, In x (obfuscate m) /\
       In (category x) ["api_calls"; "suspicious_calls"] /\ split_second x = Some y) /\
  (forall y, In y (class_to_rename st) <->
     exists x, In x (obfuscate m) /\
       In (category x) ["activities"; "services"; "providers"; "receivers"] /\
       exists f, split_second x = Some f /\
                 y = String.append "L" (String.append (replace_dot f) ";")).
Proof.
  unfold manipulate_sets in H.
  destruct (fold_opt inject_step (inject m) reset_sets) as [st0|] eqn:E; [|discriminate].
  (* fields written by the first loop and kept by the second *)
  assert (Kurls : urls_to_inject st = urls_to_inject st0)
    by (apply (fold_opt_field_same obfuscate_step urls_to_inject
                 (fun s x s' Hs => proj1 (proj2 (proj2 (proj2 (obfuscate_step_sets s x s' Hs)))))
                 _ _ _ H)).
  assert (Kapis : apis_to_inject st = apis_to_inject st0)
    by (apply (fold_opt_field_same obfuscate_step apis_to_inject
                 (fun s x s' Hs => proj2 (proj2 (proj2 (proj2 (obfuscate_step_sets s x s' Hs)))))
                 _ _ _ H)).
  (* fields kept by the first loop and written by the second *)
  assert (Kstr : string_to_encrypt st0 = string_to_encrypt reset_sets)
    by (apply (fold_opt_field_same inject_step string_to_encrypt
                 (fun s x s' Hs => proj1 (proj2 (proj2 (inject_step_sets s x s' Hs))))
                 _ _ _ E)).
  assert (Kand : android_api_to_reflect st0 = android_api_to_reflect reset_sets)
    by (apply (fold_opt_field_same inject_step android_api_to_reflect
                 (fun s x s' Hs => proj1 (proj2 (proj2 (proj2 (inject_step_sets s x s' Hs)))))
                 _ _ _ E)).
  assert (Kcls : class_to_rename st0 = class_to_rename reset_sets)
    by (apply (fold_opt_field_same inject_step class_to_rename
                 (fun s x s' Hs => proj2 (proj2 (proj2 (proj2 (inject_step_sets s x s' Hs)))))
                 _ _ _ E)).
  assert (Empty : forall (P : string -> Prop) (l : list string) (y : string),
             In y [] \/ (exists x, In x l /\ P x) <-> exists x, In x l /\ P x)
    by (intros; simpl; tauto).
  split; [|split; [|split; [|split]]]; intros y.
  - rewrite Kurls.
    rewrite (fold_opt_field inject_step urls_to_inject _
               (fun s x s' Hs => proj1 (inject_step_sets s x s' Hs)) _ _ _ E y).
    apply Empty.
  - rewrite Kapis.
    rewrite (fold_opt_field inject_step apis_to_inject _
               (fun s x s' Hs => proj1 (proj2 (inject_step_sets s x s' Hs))) _ _ _ E y).
    apply Empty.
  - rewrite (fold_opt_field obfuscate_step string_to_encrypt _
               (fun s x s' Hs => proj1 (obfuscate_step_sets s x s' Hs)) _ _ _ H y), Kstr.
    apply Empty.
  - rewrite (fold_opt_field obfuscate_step android_api_to_reflect _
               (fun s x s' Hs => proj1 (proj2 (obfuscate_step_sets s x s' Hs))) _ _ _ H y), Kand.
    apply Empty.
  - rewrite (fold_opt_field obfuscate_step class_to_rename _
               (fun s x s' Hs => proj1 (proj2 (proj2 (obfuscate_step_sets s x s' Hs))))
               _ _ _ H y), Kcls.
    apply Empty.
Qed.

Lemma manipulate_sets_contents_witness :
  manipulate_sets (mkManipulations ["urls::a.b"; "intents::x"]
                     ["activities::com.app.Main"; "api_calls::f"])
  = Some (mkManipSets ["Lcom/app/Main;"] ["f"] [] ["a.b"] []) /\
  In "Lcom/app/Main;" (class_to_rename (mkManipSets ["Lcom/app/Main;"] ["f"] [] ["a.b"] [])).
Proof.
  assert (H : manipulate_sets (mkManipulations ["urls::a.b"; "intents::x"]
                       ["activities::com.app.Main"; "api_calls::f"])
              = Some (mkManipSets ["Lcom/app/Main;"] ["f"] [] ["a.b"] [])) by reflexivity.
  split; [exact H|].
  apply (proj2 (proj2 (proj2 (proj2 (proj2 (manipulate_sets_contents _ _ H))))
           "Lcom/app/Main;")).
  exists "activities::com.app.Main"; split; [left; reflexivity|].
  split; [left; reflexivity|]. exists "com.app.Main"; split; reflexivity.
Defined.

(* ------------------------------------------------------------------ *)
(** * [treat_dex]: the chunks of strings and the loop over smali files *)

Lemma strings_chunks_from (l : list string) (n k : nat) :
  (List.length l <= 15 * (k + n))%nat ->
  List.concat (map (fun i => firstn 15 (skipn i l)) (map (fun k => 15 * k)%nat (seq k n)))
  = skipn (15 * k) l.
Proof.
  revert k; induction n as [|n IH]; intros k H; cbn [seq map List.concat].
  - symmetry; apply skipn_all2; lia.
  - rewrite IH by lia.
    replace (15 * S k)%nat with (15 + 15 * k)%nat by lia.
    rewrite <- skipn_skipn, firstn_skipn; reflexivity.
Qed.

Lemma nth_map_seq0 {A : Type} (f : nat -> A) (n k : nat) (d : A) :
  (k < n)%nat -> nth k (map f (seq 0 n)) d = f k.
Proof.
  intros H; rewrite (nth_indep _ d (f 0%nat)) by (rewrite length_map, length_seq; lia).
  rewrite map_nth, seq_nth by lia; reflexivity.
Qed.

(** [[strings[i : i + 15] for i in range(0, len(strings), 15)]] cuts the
    URLs into consecutive chunks that concatenate back to the whole list;
    every chunk holds 1 to 15 strings, every chunk but the last exactly
    15, and there are ceil(len / 15) of them. *)
Theorem strings_to_inject_chunks (strings : list string) :
  List.concat (strings_to_inject strings) = strings /\
  (forall c, In c (strings_to_inject strings) -> (1 <= List.length c <= 15)%nat) /\
  (forall k, (S k < List.length (strings_to_inject strings))%nat ->
     List.length (nth k (strings_to_inject strings) []) = 15%nat) /\
  List.length (strings_to_inject strings) = ((List.length strings + 14) / 15)%nat.
Proof.
  unfold strings_to_inject.
  assert (Hd : (List.length strings <= 15 * ((List.length strings + 14) / 15))%nat).
  { pose proof (Nat.div_mod (List.length strings + 14) 15 ltac:(lia)).
    pose proof (Nat.mod_upper_bound (List.length strings + 14) 15 ltac:(lia)). lia. }
  split; [|split; [|split]].
  - rewrite strings_chunks_from by lia; reflexivity.
  - intros c Hc; rewrite map_map in Hc; apply in_map_iff in Hc as [k [<- Hk]].
    apply in_seq in Hk; rewrite length_firstn, length_skipn.
    assert (15 * k < List.length strings)%nat.
    { pose proof (Nat.div_mod (List.length strings + 14) 15 ltac:(lia)).
      pose proof (Nat.mod_upper_bound (List.length strings + 14) 15 ltac:(lia)).
      assert (k + 1 <= (List.length strings + 14) / 15)%nat by lia. nia. }
    lia.
  - intros k Hk; rewrite !length_map, length_seq in Hk.
    rewrite map_map, nth_map_seq0 by lia.
    rewrite length_firstn, length_skipn.
    assert (15 * (k + 2) <= List.length strings + 14)%nat.
    { pose proof (Nat.div_mod (List.length strings + 14) 15 ltac:(lia)).
      pose proof (Nat.mod_upper_bound (List.length strings + 14) 15 ltac:(lia)). nia. }
    lia.
  - rewrite !length_map, length_seq; reflexivity.
Qed.

Lemma skipn_nth_cons {A : Type} (a : nat) (l : list A) (d : A) :
  (a < List.length l)%nat -> skipn a l = nth a l d :: skipn (S a) l.
Proof.
  revert l; induction a as [|a IH]; intros [|x t] H; simpl in H; try lia.
  - reflexivity.
  - simpl; apply IH; lia.
Qed.

Lemma treat_dex_loop_spec (add_function : string -> list string -> bool)
  (max_methods_to_add : Z) (chunks : list (list string)) (files : list string) :
  forall a, let r := treat_dex_loop add_function max_methods_to_add chunks files a in
  map snd (snd r) = firstn (List.length (snd r)) (skipn a chunks) /\
  Z.of_nat (a + List.length (snd r)) <= Z.max (Z.of_nat a) max_methods_to_add /\
  (fst r = false -> max_methods_to_add <= Z.of_nat (a + List.length (snd r)) /\
                    (a + List.length (snd r) < List.length chunks)%nat).
Proof.
  induction files as [|f fs IH]; intros a; simpl.
  - split; [reflexivity|split; [lia|discriminate]].
  - destruct (List.length chunks <=? a)%nat eqn:L; [simpl; split; [reflexivity|split; [lia|discriminate]]|].
    apply Nat.leb_gt in L.
    destruct (Z.of_nat a <? max_methods_to_add) eqn:Mx.
    + apply Z.ltb_lt in Mx.
      destruct (add_function f (nth a chunks [])).
      * specialize (IH (S a)).
        destruct (treat_dex_loop add_function max_methods_to_add chunks fs (S a)) as [b added].
        simpl in IH |- *. destruct IH as [I1 [I2 I3]].
        split; [|split].
        -- rewrite (skipn_nth_cons a chunks []) by exact L; simpl; rewrite I1; reflexivity.
        -- lia.
        -- intros Hb; specialize (I3 Hb); lia.
      * exact (IH a).
    + apply Z.ltb_ge in Mx; simpl; split; [reflexivity|split; [lia|]].
      intros _; split; lia.
Qed.

(** [treat_dex] places the chunks in order, from the first one, each on a
    different smali file; it never places more than [max_methods_to_add]
    of them; and it returns False only when it stops with chunks left and
    the limit reached. *)
Theorem treat_dex_places_prefix (add_function : string -> list string -> bool)
  (urls_to_inject smali_files : list string) (max_methods_to_add : Z) :
  let r := treat_dex add_function urls_to_inject smali_files max_methods_to_add in
  map snd (snd r) = firstn (List.length (snd r)) (strings_to_inject urls_to_inject) /\
  Z.of_nat (List.length (snd r)) <= Z.max 0 max_methods_to_add /\
  (fst r = false -> Z.of_nat (List.length (snd r)) = Z.max 0 max_methods_to_add /\
                    (List.length (snd r) < List.length (strings_to_inject urls_to_inject))%nat).
Proof.
  unfold treat_dex.
  destruct (treat_dex_loop_spec add_function max_methods_to_add
              (strings_to_inject urls_to_inject) smali_files 0) as [H1 [H2 H3]].
  cbv zeta in *; simpl in H1, H2, H3.
  split; [exact H1|split; [exact H2|]].
  intros Hf; specialize (H3 Hf); lia.
Qed.

Lemma treat_dex_loop_all_fail (add_function : string -> list string -> bool)
  (max_methods_to_add : Z) (chunks : list (list string))
  (Hfail : forall f c, add_function f c = false) (files : list string) :
  treat_dex_loop add_function max_methods_to_add chunks files 0 =
  (negb (match files with [] => false | _ => true end &&
         (0 <? List.length chunks)%nat && (max_methods_to_add <=? 0)), []).
Proof.
  destruct chunks as [|c cs].
  { destruct files; reflexivity. }
  induction files as [|f fs IH]; [reflexivity|]; cbn [treat_dex_loop].
  replace (List.length (c :: cs) <=? 0)%nat with false by reflexivity.
  replace (0 <? List.length (c :: cs))%nat with true by reflexivity.
  change (Z.of_nat 0) with 0.
  destruct (0 <? max_methods_to_add) eqn:Mx.
  - rewrite Hfail, IH. apply Z.ltb_lt in Mx.
    rewrite (proj2 (Z.leb_gt _ _) Mx), !andb_false_r; reflexivity.
  - apply Z.ltb_ge in Mx; rewrite (proj2 (Z.leb_le _ _) Mx); reflexivity.
Qed.

(** When [add_function] fails on every file (no "# direct methods" line),
    nothing is injected, yet [treat_dex] returns True unless there are
    files and strings and [max_methods_to_add <= 0]. *)
Theorem treat_dex_true_without_injection (add_function : string -> list string -> bool)
  (urls_to_inject smali_files : list string) (max_methods_to_add : Z)
  (Hfail : forall f c, add_function f c = false) :
  snd (treat_dex add_function urls_to_inject smali_files max_methods_to_add) = [] /\
  (fst (treat_dex add_function urls_to_inject smali_files max_methods_to_add) = false <->
   smali_files <> [] /\ urls_to_inject <> [] /\ max_methods_to_add <= 0).
Proof.
  unfold treat_dex; rewrite (treat_dex_loop_all_fail _ _ _ Hfail).
  split; [reflexivity|]. cbn [fst].
  assert (Hl : (0 <? List.length (strings_to_inject urls_to_inject))%nat = true <->
               urls_to_inject <> []).
  { unfold strings_to_inject; rewrite !length_map, length_seq, Nat.ltb_lt.
    destruct urls_to_inject as [|u us]; cbn [List.length].
    { replace ((0 + 14) / 15)%nat with 0%nat by reflexivity.
      split; [lia|intros []; reflexivity]. }
    split; [discriminate|intros _].
    apply (Nat.div_le_lower_bound _ 15 1); lia. }
  destruct smali_files as [|f fs]; simpl.
  - split; [discriminate|intros [[] _]; reflexivity].
  - rewrite negb_false_iff, andb_true_iff, Hl, Z.leb_le.
    split; [intros [A B]; split; [discriminate|split; assumption]|intros [_ [A B]]; split; assumption].
Qed.

Lemma treat_dex_true_without_injection_witness :
  let fail := fun (_ : string) (_ : list string) => false in
  (forall f c, fail f c = false) /\
  treat_dex fail ["http://a"] ["A.smali"; "B.smali"] 5 = (true, []) /\
  snd (treat_dex fail ["http://a"] ["A.smali"; "B.smali"] 5) = [].
Proof.
  intros fail.
  assert (Hf : forall f c, fail f c = false) by reflexivity.
  split; [exact Hf|split; [reflexivity|]].
  exact (proj1 (treat_dex_true_without_injection fail ["http://a"] ["A.smali"; "B.smali"] 5 Hf)).
Defined.

(* ------------------------------------------------------------------ *)
(** * [_analyze_methods] *)

Lemma skipn_cons_nth {A : Type} (a : nat) (l t : list A) (x d : A) :
  skipn a l = x :: t -> nth a l d = x /\ skipn (S a) l = t.
Proof.
  revert l; induction a as [|a IH]; intros [|y l] H; simpl in H |- *; try discriminate.
  - injection H as -> ->; split; reflexivity.
  - exact (IH l H).
Qed.

Lemma nth_error_hd_skipn {A : Type} (n : nat) (l : list A) :
  nth_error l n = hd_error (skipn n l).
Proof.
  revert l; induction n as [|n IH]; intros [|x l]; simpl; try reflexivity; apply IH.
Qed.

Lemma analyze_from_none (method_match : string -> option string)
  (needed_registers : string -> nat) (locals_match : string -> option nat)
  (lines rest : list string) :
  forall a, skipn a lines = rest ->
  analyze_from method_match needed_registers locals_match lines a rest = None <->
  exists pre x, rest = pre ++ [x] /\ method_match x <> None.
Proof.
  induction rest as [|line t IH]; intros a Hs.
  - simpl; split; [discriminate|intros [pre [x [H _]]]].
    destruct pre; discriminate.
  - destruct (skipn_cons_nth a lines t line "" Hs) as [_ Ht].
    specialize (IH (S a) Ht).
    assert (Hn : nth_error lines (S a) = hd_error t) by (rewrite nth_error_hd_skipn, Ht; reflexivity).
    assert (Shift : (exists pre x, line :: t = pre ++ [x] /\ method_match x <> None) <->
                    (t = [] /\ method_match line <> None) \/
                    (exists pre x, t = pre ++ [x] /\ method_match x <> None)).
    { split.
      - intros [[|p pre] [x [E Mx]]]; simpl in E; injection E as E1 E2.
        + left; split; [exact E2|rewrite E1; exact Mx].
        + right; exists pre, x; split; assumption.
      - intros [[-> Ml]|[pre [x [-> Mx]]]].
        + exists [], line; split; [reflexivity|exact Ml].
        + exists (line :: pre), x; split; [reflexivity|exact Mx]. }
    rewrite Shift; cbn [analyze_from]; unfold analyze_line; rewrite Hn.
    destruct (method_match line) as [p|] eqn:Ml.
    + destruct t as [|y t'].
      * simpl; split; [intros _; left; split; [reflexivity|discriminate]|reflexivity].
      * cbn [hd_error].
        destruct (analyze_from method_match needed_registers locals_match lines (S a) (y :: t'))
          as [[[is bs] cs]|] eqn:R.
        -- split; [discriminate|].
           intros [[E _]|Hr]; [discriminate|apply IH in Hr; discriminate].
        -- split; [intros _; right; apply IH; reflexivity|reflexivity].
    + destruct (analyze_from method_match needed_registers locals_match lines (S a) t)
        as [[[is bs] cs]|] eqn:R.
      * split; [discriminate|].
        intros [[_ N]|Hr]; [contradiction|apply IH in Hr; discriminate].
      * split; [intros _; right; apply IH; reflexivity|reflexivity].
Qed.

(** [_analyze_methods] raises an IndexError ([lines[line_number + 1]])
    exactly when the last line of the file matches the method pattern;
    any other file is analysed. *)
Theorem analyze_methods_index_error (method_match : string -> option string)
  (needed_registers : string -> nat) (locals_match : string -> option nat)
  (lines : list string) :
  analyze_methods method_match needed_registers locals_match lines = None <->
  exists pre x, lines = pre ++ [x] /\ method_match x <> None.
Proof. apply analyze_from_none; reflexivity. Qed.

Lemma analyze_from_some (method_match : string -> option string)
  (needed_registers : string -> nat) (locals_match : string -> option nat)
  (lines rest : list string) :
  let local i := match locals_match (nth (S i) lines "") with Some n => n | None => 16%nat end in
  forall a is bs cs, skipn a lines = rest ->
  analyze_from method_match needed_registers locals_match lines a rest = Some (is, bs, cs) ->
  is = filter (fun i => match method_match (nth i lines "") with Some _ => true | None => false end)
         (seq a (List.length rest)) /\
  cs = map local is /\
  bs = map (fun i => match method_match (nth i lines "") with
                     | Some p => (needed_registers p + local i <=? 11)%nat
                     | None => false
                     end) is.
Proof.
  intros local; induction rest as [|line t IH]; intros a is bs cs Hs H.
  - simpl in H; injection H as <- <- <-; split; [|split]; reflexivity.
  - destruct (skipn_cons_nth a lines t line "" Hs) as [Hl Ht].
    assert (Hn : nth_error lines (S a) = hd_error t) by (rewrite nth_error_hd_skipn, Ht; reflexivity).
    cbn [analyze_from List.length seq filter] in H |- *; unfold analyze_line in H.
    rewrite Hl, Hn in *.
    destruct (method_match line) as [p|] eqn:Ml.
    + destruct t as [|y t']; [discriminate|]. cbn [hd_error] in H.
      destruct (analyze_from method_match needed_registers locals_match lines (S a) (y :: t'))
        as [[[is' bs'] cs']|] eqn:R; [|discriminate].
      injection H as <- <- <-.
      destruct (IH (S a) is' bs' cs' Ht R) as [I1 [I2 I3]].
      assert (Hy : nth (S a) lines "" = y) by (exact (proj1 (skipn_cons_nth _ _ _ _ "" Ht))).
      cbn [map]; rewrite Hl, Ml, <- I1, <- I2, <- I3.
      unfold local; rewrite Hy; split; [|split]; reflexivity.
    + destruct (analyze_from method_match needed_registers locals_match lines (S a) t)
        as [[[is' bs'] cs']|] eqn:R; [|discriminate].
      injection H as <- <- <-.
      exact (IH (S a) is' bs' cs' Ht R).
Qed.

(** What [_analyze_methods] returns: the line numbers of the method
    declarations, in order; for each, the [.locals] count of the next
    line, 16 when that line is not a [.locals] line; and reflectability
    exactly when the needed parameter registers plus that count are at
    most 11 (so a method without a [.locals] line is never reflectable).
    The three lists are aligned. *)
Theorem analyze_methods_result (method_match : string -> option string)
  (needed_registers : string -> nat) (locals_match : string -> option nat)
  (lines : list string) (method_index : list nat) (method_is_reflectable : list bool)
  (method_local_count : list nat)
  (H : analyze_methods method_match needed_registers locals_match lines =
       Some (method_index, method_is_reflectable, method_local_count)) :
  let local i := match locals_match (nth (S i) lines "") with Some n => n | None => 16%nat end in
  method_index =
    filter (fun i => match method_match (nth i lines "") with Some _ => true | None => false end)
      (seq 0 (List.length lines)) /\
  method_local_count = map local method_index /\
  method_is_reflectable =
    map (fun i => match method_match (nth i lines "") with
                  | Some p => (needed_registers p + local i <=? 11)%nat
                  | None => false
                  end) method_index.
Proof. exact (analyze_from_some _ _ _ lines lines 0 _ _ _ eq_refl H). Qed.

Lemma analyze_methods_result_witness :
  let mm := fun s : string => if String.eqb s ".method f" then Some "I" else None in
  let lm := fun s : string => if String.eqb s ".locals 3" then Some 3%nat else None in
  let nr := fun _ : string => 1%nat in
  let lines := [".method f"; ".locals 3"; "x"; ".method f"; "y"] in
  analyze_methods mm nr lm lines = Some ([0; 3], [true; false], [3; 16])%nat /\
  ([0; 3] = filter (fun i => match mm (nth i lines "") with Some _ => true | None => false end)
              (seq 0 (List.length lines)))%nat.
Proof.
  intros mm lm nr lines.
  assert (H : analyze_methods mm nr lm lines = Some ([0; 3], [true; false], [3; 16])%nat)
    by reflexivity.
  split; [exact H|].
  exact (proj1 (analyze_methods_result mm nr lm lines _ _ _ H)).
Defined.

(* ------------------------------------------------------------------ *)
(** * [_build_manipulation_space] *)

Lemma error_free_from_single_sound (build : Manipulations -> bool) (n_jobs : Z)
  (baseline_ok : bool) (fuel : nat) (m r : Manipulations) :
  get_error_free_manipulations build n_jobs baseline_ok fuel m = Some r ->
  (forall x, In x (inject r) -> In x (inject m) /\
     exists s, build s = true /\ In x (inject s)) /\
  (forall x, In x (obfuscate r) -> In x (obfuscate m) /\
     exists s, build s = true /\ In x (obfuscate s)).
Proof.
  unfold get_error_free_manipulations; destruct baseline_ok; [|discriminate].
  intros H; apply recurse_apply_manipulations_sound in H as [Hi Ho]; split.
  - intros x Hx; destruct (Hi x Hx) as [s [Bs [Xs [m0 [[<-|[]] [Ii _]]]]]].
    split; [apply Ii; exact Xs|exists s; split; assumption].
  - intros x Hx; destruct (Ho x Hx) as [s [Bs [Xs [m0 [[<-|[]] [_ Io]]]]]].
    split; [apply Io; exact Xs|exists s; split; assumption].
Qed.

Lemma store_get_put (name name' : string) (m : Manipulations) (st : cache_store) :
  store_get name (store_put name' m st) =
  if String.eqb name name' then Some m else store_get name st.
Proof.
  unfold store_put; simpl.
  destruct (String.eqb_spec name name') as [_|Hne]; [reflexivity|].
  induction st as [|[k v] t IH]; [reflexivity|]; simpl.
  destruct (String.eqb_spec name' k) as [->|Hk]; simpl.
  - apply String.eqb_neq in Hne; rewrite Hne; exact IH.
  - destruct (String.eqb name k); [reflexivity|exact IH].
Qed.

(** [get_error_free_manipulations] with its cache either returns the
    loaded pickle, leaving the files alone, or misses, computes and saves. *)
Lemma error_free_cached_cases (build : Manipulations -> bool) (n_jobs : Z)
  (baseline_ok : bool) (fuel : nat) (cache_dir : option string) (stem : string)
  (st : cache_store) (m r : Manipulations) (st' : cache_store) :
  get_error_free_manipulations_cached build n_jobs baseline_ok fuel cache_dir stem st m
  = Some (r, st') ->
  (cache_enabled cache_dir = true /\ store_get (cache_filename stem m) st = Some r /\ st' = st) \/
  (get_error_free_manipulations build n_jobs baseline_ok fuel m = Some r /\
   st' = save_error_free_manipulations cache_dir stem r st).
Proof.
  unfold get_error_free_manipulations_cached, load_error_free_manipulations.
  destruct (cache_enabled cache_dir) eqn:Ec.
  - destruct (store_get (cache_filename stem m) st) as [r0|] eqn:Eg.
    + intros H; injection H as <- <-; left; split; [reflexivity|split; reflexivity].
    + destruct (get_error_free_manipulations build n_jobs baseline_ok fuel m) as [r0|] eqn:Er;
        [|discriminate].
      intros H; injection H as <- <-; right; split; reflexivity.
  - destruct (get_error_free_manipulations build n_jobs baseline_ok fuel m) as [r0|] eqn:Er;
      [|discriminate].
    intros H; injection H as <- <-; right; split; reflexivity.
Qed.

(** After the call on a set without obfuscations, an obfuscation candidate
    found in a pickle was already in that pickle before the call: the file
    the call may save holds no obfuscation. *)
Lemma error_free_cached_store_obfuscate (build : Manipulations -> bool) (n_jobs : Z)
  (baseline_ok : bool) (fuel : nat) (cache_dir : option string) (stem : string)
  (st : cache_store) (m r : Manipulations) (st1 : cache_store)
  (name : string) (r1 : Manipulations) (x : string) :
  obfuscate m = [] ->
  get_error_free_manipulations_cached build n_jobs baseline_ok fuel cache_dir stem st m
  = Some (r, st1) ->
  store_get name st1 = Some r1 -> In x (obfuscate r1) ->
  store_get name st = Some r1.
Proof.
  intros Hm H Hg Hx.
  apply error_free_cached_cases in H as [[_ [_ ->]]|[Hr ->]]; [exact Hg|].
  unfold save_error_free_manipulations in Hg.
  destruct (cache_enabled cache_dir); [|exact Hg].
  rewrite store_get_put in Hg.
  destruct (String.eqb name (cache_filename stem r)); [|exact Hg].
  injection Hg as <-.
  apply error_free_from_single_sound in Hr as [_ Ho].
  destruct (Ho x Hx) as [Hin _]; rewrite Hm in Hin; destruct Hin.
Qed.

(** The space [_build_manipulation_space] returns has no disabled category
    and no classifier query was made. Each kept injection is a candidate of
    [ManipulationSpace(...)] that was part of a manipulation set whose APK
    was built, or, with the cache enabled, comes from the pickle that was
    already stored under the name [_load_error_free_manipulations] chose for
    the injections; likewise for each kept obfuscation. *)
Theorem build_manipulation_space_sound extract_features goodware_features build baseline_ok
  n_jobs depth features_cache apk_stem (sample : string) (s s' : attack_state)
  (sp' : ManipulationSpace)
  (H : build_manipulation_space extract_features goodware_features build baseline_ok
         n_jobs depth features_cache apk_stem sample s = (inl sp', s')) :
  exists sp, ManipulationSpace_init goodware_features (extract_features sample) = Some sp /\
  disabled_categories sp' = [] /\ queries s' = queries s /\
  (forall x, In x (ms_inject sp') ->
     (In x (ms_inject sp) /\ exists m, build sample m = true /\ In x (inject m)) \/
     (cache_enabled features_cache = true /\
      exists r, store_get (cache_filename (apk_stem sample) (get_all_injections sp)) (store s)
                = Some r /\ In x (inject r))) /\
  (forall x, In x (ms_obfuscate sp') ->
     (In x (ms_obfuscate sp) /\ exists m, build sample m = true /\ In x (obfuscate m)) \/
     (cache_enabled features_cache = true /\
      exists r, store_get (cache_filename (apk_stem sample) (get_all_obfuscations sp)) (store s)
                = Some r /\ In x (obfuscate r))).
Proof.
  pose proof (build_manipulation_space_queries extract_features goodware_features build
                baseline_ok n_jobs depth features_cache apk_stem sample s) as Hq.
  rewrite H in Hq; simpl in Hq.
  unfold build_manipulation_space, bind, of_option, with_store, ret, raise in H.
  destruct (ManipulationSpace_init goodware_features (extract_features sample)) as [sp|] eqn:E;
    [|discriminate].
  destruct (get_error_free_manipulations_cached (build sample) n_jobs (baseline_ok sample) depth
              features_cache (apk_stem sample) (store s) (get_all_injections sp))
    as [[inj st1]|] eqn:Ei; [|discriminate].
  cbn [store queries] in H.
  destruct (get_error_free_manipulations_cached (build sample) n_jobs (baseline_ok sample) depth
              features_cache (apk_stem sample) st1 (get_all_obfuscations sp))
    as [[obf st2]|] eqn:Eo; [|discriminate].
  injection H as <- _.
  exists sp; split; [reflexivity|].
  assert (Hd : disabled_categories sp = []).
  { unfold ManipulationSpace_init in E.
    destruct (get_valid_injections _) as [vi|]; [|discriminate].
    destruct (get_valid_obfuscations _) as [vo|]; [|discriminate].
    injection E as <-; reflexivity. }
  split; [exact Hd|split; [exact Hq|split]];
    cbn [set_error_free_manipulations ms_inject ms_obfuscate inject obfuscate].
  - intros x Hx.
    apply error_free_cached_cases in Ei as [[Ec [Eg _]]|[Er _]].
    + right; split; [exact Ec|exists inj; split; [exact Eg|exact Hx]].
    + apply error_free_from_single_sound in Er as [Ii _].
      left; exact (Ii x Hx).
  - intros x Hx.
    apply error_free_cached_cases in Eo as [[Ec [Eg _]]|[Er _]].
    + right; split; [exact Ec|exists obf; split; [|exact Hx]].
      exact (error_free_cached_store_obfuscate (build sample) n_jobs (baseline_ok sample) depth
               features_cache (apk_stem sample) (store s) (get_all_injections sp) inj st1 _ obf x
               eq_refl Ei Eg Hx).
    + apply error_free_from_single_sound in Er as [_ Oo].
      left; exact (Oo x Hx).
Qed.

Lemma build_manipulation_space_sound_witness :
  let ef := fun _ : string => ["activities::A"; "urls::m"] in
  let gf := ["urls::u"] in
  let b := fun (_ : string) (s : Manipulations) => negb (str_mem "urls::m" (obfuscate s)) in
  let bl := fun _ : string => true in
  build_manipulation_space ef gf b bl 2 4 None (fun s => s) "s" (mkState 0 [])
  = (inl (mkSpace ["urls::u"] ["activities::A"] []), mkState 0 []) /\
  exists sp, ManipulationSpace_init gf (ef "s") = Some sp /\
  In "activities::A" (ms_obfuscate sp).
Proof.
  intros ef gf b bl.
  assert (H : build_manipulation_space ef gf b bl 2 4 None (fun s => s) "s" (mkState 0 [])
              = (inl (mkSpace ["urls::u"] ["activities::A"] []), mkState 0 [])) by reflexivity.
  split; [exact H|].
  destruct (build_manipulation_space_sound ef gf b bl 2 4 None (fun s => s) "s" _ _ _ H)
    as [sp [E [_ [_ [_ Ho]]]]].
  exists sp; split; [exact E|].
  destruct (Ho "activities::A" (or_introl eq_refl)) as [[Hin _]|[Ec _]];
    [exact Hin|discriminate Ec].
Defined.

(** With the cache enabled, the pickle found under the name chosen from the
    input is used as is: here the stored injection "urls::old" is neither a
    candidate of [ManipulationSpace(...)] nor buildable, and it makes up
    the injections of the space. The obfuscations, missing from the cache,
    are computed and saved. *)
Theorem build_manipulation_space_stale_cache :
  let ef := fun _ : string => ["activities::A"] in
  let gf := ["urls::u"] in
  let b := fun (_ : string) (m : Manipulations) => negb (str_mem "urls::old" (inject m)) in
  let bl := fun _ : string => true in
  let st := [("s.inject.pkl", mkManipulations ["urls::old"] [])] in
  ManipulationSpace_init gf (ef "s") = Some (mkSpace ["urls::u"] ["activities::A"] []) /\
  b "s" (mkManipulations ["urls::old"] []) = false /\
  build_manipulation_space ef gf b bl 2 4 (Some "cache") (fun s => s) "s" (mkState 0 st)
  = (inl (mkSpace ["urls::old"] ["activities::A"] []),
     mkState 0 (("s.obfuscate.pkl", mkManipulations [] ["activities::A"]) :: st)).
Proof. split; [reflexivity|split; reflexivity]. Qed.

(* ------------------------------------------------------------------ *)
(** * [_init_attack] *)

(** [_init_attack] with no classifier query before the probing. If building
    the space raises, [_init_attack] raises the same. Otherwise the
    error-free space is probed. When every probe gets a score, there is one
    query per distinct category of its candidates, then "No manipulation
    can be applied." is raised exactly when that space is empty, and
    otherwise a space with the same candidates is returned. When a probe's
    classification raises, [_init_attack] raises it after the queries of the
    probes up to that one. *)
Theorem init_attack_queries extract_features goodware_features build baseline_ok
  (probe_score : string -> Manipulations -> option Z)
  n_jobs depth features_cache apk_stem (sample : string) (init_score : Z) (s : attack_state) :
  (forall e s1,
     build_manipulation_space extract_features goodware_features build baseline_ok
       n_jobs depth features_cache apk_stem sample s = (inr e, s1) ->
     init_attack extract_features goodware_features build baseline_ok probe_score
       n_jobs depth features_cache apk_stem sample init_score s = (inr e, s1) /\
     queries s1 = queries s) /\
  (forall sp s1,
     build_manipulation_space extract_features goodware_features build baseline_ok
       n_jobs depth features_cache apk_stem sample s = (inl sp, s1) ->
     let ia := init_attack extract_features goodware_features build baseline_ok probe_score
                 n_jobs depth features_cache apk_stem sample init_score s in
     let n := List.length (nodup string_dec (map category (ms_inject sp ++ ms_obfuscate sp))) in
     queries s1 = queries s /\
     (Forall (fun m => probe_score sample m <> None) (probed_sets sp) ->
      (space_len sp = 0%nat -> ia = (inr NoManipulation, mkState (queries s + n) (store s1))) /\
      (space_len sp <> 0%nat -> exists sp', ia = (inl sp', mkState (queries s + n) (store s1)) /\
         ms_inject sp' = ms_inject sp /\ ms_obfuscate sp' = ms_obfuscate sp)) /\
     (forall pre m post, probed_sets sp = pre ++ m :: post ->
        Forall (fun m => probe_score sample m <> None) pre -> probe_score sample m = None ->
        ia = (inr ClassifyError, mkState (queries s + List.length pre + 1) (store s1)))).
Proof.
  pose proof (build_manipulation_space_queries extract_features goodware_features build
                baseline_ok n_jobs depth features_cache apk_stem sample s) as Hq.
  split.
  - intros e s1 Hb; rewrite Hb in Hq; simpl in Hq.
    unfold init_attack, bind at 1; rewrite Hb; split; [reflexivity|exact Hq].
  - intros sp s1 Hb; cbv zeta; rewrite Hb in Hq; simpl in Hq.
    split; [exact Hq|split].
    + intros Hall.
      destruct (model_probing_count (probe_score sample) init_score sp (queries s1) Hall)
        as [sp' [Hm [Hi Ho]]].
      assert (Hl : space_len sp' = space_len sp)
        by (unfold space_len, space_manipulations; rewrite Hi, Ho; reflexivity).
      split; intros Hz; unfold init_attack, bind at 1; rewrite Hb;
        unfold bind, lift; rewrite Hm, Hq, Hl.
      * rewrite Hz; reflexivity.
      * apply Nat.eqb_neq in Hz; rewrite Hz; exists sp'; split; [reflexivity|split; assumption].
    + intros pre m post E Hpre Hm.
      pose proof (model_probing_raise (probe_score sample) init_score sp (queries s1)
                    pre m post E Hpre Hm) as Hr.
      unfold init_attack, bind at 1; rewrite Hb.
      unfold bind, lift; rewrite Hr, Hq; reflexivity.
Qed.

Lemma init_attack_queries_witness :
  let ef := fun _ : string => ["activities::A"] in
  let gf := ["urls::u"] in
  let b := fun (_ : string) (_ : Manipulations) => true in
  let bl := fun _ : string => true in
  let ps := fun (_ : string) (m : Manipulations) =>
    if str_mem "activities::A" (obfuscate m) then None else Some 90 in
  build_manipulation_space ef gf b bl 2 4 None (fun s => s) "s" (mkState 5 [])
  = (inl (mkSpace ["urls::u"] ["activities::A"] []), mkState 5 []) /\
  probed_sets (mkSpace ["urls::u"] ["activities::A"] [])
  = [mkManipulations ["urls::u"] []; mkManipulations [] ["activities::A"]] /\
  init_attack ef gf b bl ps 2 4 None (fun s => s) "s" 90 (mkState 5 [])
  = (inr ClassifyError, mkState 7 []).
Proof.
  intros ef gf b bl ps.
  assert (Hb : build_manipulation_space ef gf b bl 2 4 None (fun s => s) "s" (mkState 5 [])
               = (inl (mkSpace ["urls::u"] ["activities::A"] []), mkState 5 [])) by reflexivity.
  assert (E : probed_sets (mkSpace ["urls::u"] ["activities::A"] [])
              = [mkManipulations ["urls::u"] []; mkManipulations [] ["activities::A"]])
    by reflexivity.
  split; [exact Hb|split; [exact E|]].
  refine (proj2 (proj2 (proj2 (init_attack_queries ef gf b bl ps 2 4 None (fun s => s) "s" 90
                                 (mkState 5 [])) _ _ Hb))
            [mkManipulations ["urls::u"] []] (mkManipulations [] ["activities::A"]) [] E _ _).
  - constructor; [discriminate|constructor].
  - reflexivity.
Defined.
